(** * NFL process-mining pipeline: the driver [run_transformation.py]

    A shallow embedding of the Python driver (download, SQL transformation,
    validation, persistence, reporting) and of the transformation ruleset it
    applies, with the properties the specification states about them.

    Layout:
    - [Frame]      : the pandas objects the driver manipulates;
    - [Py]         : Python control flow (return, raise, [sys.exit]) with a
                     trace of the observable actions;
    - [Validator]  : [validate_transformation];
    - [Pipeline]   : the remaining functions and [main];
    - [Ruleset]    : the transformation ruleset of section 4.2.

    The properties follow the definitions: first those the specification
    states (C1 to C10), then further ones read off the driver (X1 to X5). *)

From stdpp Require Import base decidable option list strings numbers sorting gmap.

Local Open Scope string_scope.
Local Open Scope Z_scope.
Local Open Scope list_scope.

(* ===================================================================== *)
(** * Data frames *)
(* ===================================================================== *)

Module Frame.

(** A cell of a data frame.  [Null] stands for the missing value that
    [isna] recognises ([None] or [NaN]: a SQL NULL read back by
    [pd.read_sql]). *)
Inductive cell : Type :=
| Null
| Str (s : string)
| Int (z : Z).

#[global] Instance cell_eq_dec : EqDecision cell.
Proof. solve_decision. Defined.

(** A frame: its column labels and its rows, each row holding one cell per
    column, in column order. *)
Record DataFrame : Type := mkFrame {
  columns : list string;
  rows : list (list cell)
}.

(** [len(df)] *)
Definition len (df : DataFrame) : nat := length (rows df).

(** [col in df.columns] *)
Definition has_column (df : DataFrame) (col : string) : bool :=
  bool_decide (col ∈ columns df).

(** [df.empty]: some axis has length zero. *)
Definition empty (df : DataFrame) : bool :=
  bool_decide (columns df = []) || bool_decide (rows df = []).

(** Position of a label among the column labels. *)
Definition position (df : DataFrame) (col : string) : option nat :=
  fst <$> list_find (λ c, c = col) (columns df).

(** The cells of the column at position [i], in row order. *)
Definition cells_at (df : DataFrame) (i : nat) : list cell :=
  (λ r, default Null (r !! i)) <$> rows df.

(** [df[col]]: [None] is the [KeyError] of a missing label. *)
Definition getitem (df : DataFrame) (col : string) : option (list cell) :=
  cells_at df <$> position df col.

(** The same column as a total function (no cells when the label is
    missing), for stating properties. *)
Definition column (df : DataFrame) (col : string) : list cell :=
  default [] (getitem df col).

(** [pd.isna] on one cell, and [series.isna().any()]. *)
Definition isna (c : cell) : bool :=
  match c with Null => true | _ => false end.

Definition isna_any (s : list cell) : bool := existsb isna s.

(** [series.unique()]: the distinct values in order of first appearance;
    the missing value counts as a value. *)
Fixpoint unique (s : list cell) : list cell :=
  match s with
  | [] => []
  | c :: s' => c :: filter (λ d, d ≠ c) (unique s')
  end.

(** [series.nunique()]: the number of distinct values, the missing value
    left out. *)
Definition nunique (s : list cell) : nat :=
  length (unique (filter (λ c, isna c = false) s)).

(** [df[cols]]: the sub-frame of the listed columns, each of them present. *)
Definition select (df : DataFrame) (cols : list string) : DataFrame :=
  let idx := omap (position df) cols in
  mkFrame cols ((λ r, (λ i, default Null (r !! i)) <$> idx) <$> rows df).

(** [df.head(n)] *)
Definition head (n : nat) (df : DataFrame) : DataFrame :=
  mkFrame (columns df) (take n (rows df)).

(** Number of occurrences of a value in a series. *)
Definition occurrences (c : cell) (s : list cell) : nat :=
  length (filter (λ d, d = c) s).

(** Insertion of a (value, count) pair into a ranking kept by decreasing
    count; a pair goes after the pairs of equal count already there. *)
Fixpoint rank_insert (p : cell * nat) (r : list (cell * nat)) : list (cell * nat) :=
  match r with
  | [] => [p]
  | q :: r' => if decide (q.2 < p.2)%nat then p :: q :: r' else q :: rank_insert p r'
  end.

(** [series.value_counts()]: the count of every distinct non-missing
    value, by decreasing count.  pandas leaves the order among equal counts
    to its sort; here values of equal count are kept in order of first
    appearance, and no statement below depends on that choice. *)
Definition value_counts (s : list cell) : list (cell * nat) :=
  let s' := filter (λ c, isna c = false) s in
  foldr rank_insert [] (reverse ((λ c, (c, occurrences c s')) <$> unique s')).

End Frame.

Import Frame.


(* ===================================================================== *)
(** * Python control flow and observable actions *)
(* ===================================================================== *)

Module Py.

(** The violations [validate_transformation] reports. *)
Inductive violation : Type :=
| MissingColumns (missing : list string)
| EmptyLog
| NullCaseId
| NullActivityName
| UnexpectedTeams (found : list cell).

(** What the driver prints, one constructor per [print] of interest; the
    banner and progress lines carry no data and share [Progress]. *)
Inductive message : Type :=
| Progress (line : string)
| DownloadError
| SqlStatementError (statement : nat)
| TransformationFailed
| Violation (v : violation)
| ValidationPassed (num_events num_cases num_activities : nat)
| ValidationFailed
| Saved (path : string)
| Sample (sample_data : DataFrame)
| ActivityCount (activity : cell) (count : nat)
| Cancelled
| UnexpectedError.

(** Actions visible from outside the process, in the order performed:
    console output, [Path.mkdir(exist_ok=True)], [DataFrame.to_csv] on a
    path (opened in mode [w]) and closing the database connection.  The
    two file-system actions are recorded when the call is made. *)
Inductive action : Type :=
| Print (m : message)
| Mkdir (dir : string)
| WriteCsv (path : string) (df : DataFrame)
| CloseConnection.

(** What can be raised.  The two classes of [exception] derive from
    [Exception]; [KeyboardInterrupt] and [SystemExit] do not, so an
    [except Exception] clause lets them through. *)
Inductive exception : Type :=
| sqlite3_Error
| Other_Exception.

Inductive raised : Type :=
| Exception (e : exception)
| KeyboardInterrupt
| SystemExit (code : Z).

Definition is_Exception (r : raised) : bool :=
  match r with Exception _ => true | _ => false end.

Definition is_sqlite3_Error (r : raised) : bool :=
  match r with Exception sqlite3_Error => true | _ => false end.

Definition is_KeyboardInterrupt (r : raised) : bool :=
  match r with KeyboardInterrupt => true | _ => false end.

Inductive outcome (A : Type) : Type :=
| Returns (a : A)
| Raises (r : raised).
Arguments Returns {A} a.
Arguments Raises {A} r.

(** A computation: the actions performed, then how it ended. *)
Definition py (A : Type) : Type := list action * outcome A.

Definition ret {A} (a : A) : py A := ([], Returns a).
Definition raise {A} (r : raised) : py A := ([], Raises r).
Definition act (a : action) : py unit := ([a], Returns tt).
Definition print (m : message) : py unit := act (Print m).
(** [sys.exit(code)] *)
Definition sys_exit {A} (code : Z) : py A := raise (SystemExit code).
(** How a call into a library or the operating system ends: with a
    value, with an exception, or cut short by the user's interrupt. *)
Inductive external (A : Type) : Type :=
| Ok (a : A)
| Fails (e : exception)
| Interrupted.
Arguments Ok {A} a.
Arguments Fails {A} e.
Arguments Interrupted {A}.

Definition call {A} (x : external A) : py A :=
  match x with
  | Ok a => ret a
  | Fails e => raise (Exception e)
  | Interrupted => raise KeyboardInterrupt
  end.

(** A call that is itself an observable action. *)
Definition perform {A} (a : action) (x : external A) : py A :=
  ([a], (call x).2).

Definition bind {A B} (m : py A) (k : A → py B) : py B :=
  match m.2 with
  | Returns a => ((m.1 ++ (k a).1)%list, (k a).2)
  | Raises r => (m.1, Raises r)
  end.

(** [try: m / except c1: h1 / except c2: h2 ...]: the first clause that
    matches the raised object handles it; what a handler raises is not
    handled by the clauses after it. *)
Definition except_clause (A : Type) : Type := (raised → bool) * (raised → py A).

Fixpoint matching_clause {A} (r : raised) (clauses : list (except_clause A)) :
    option (except_clause A) :=
  match clauses with
  | [] => None
  | c :: rest => if c.1 r then Some c else matching_clause r rest
  end.

Definition try_except {A} (m : py A) (clauses : list (except_clause A)) : py A :=
  match m.2 with
  | Returns a => m
  | Raises r =>
      match matching_clause r clauses with
      | Some c => ((m.1 ++ (c.2 r).1)%list, (c.2 r).2)
      | None => m
      end
  end.

(** [try: m / finally: cleanup], for a cleanup that does not raise. *)
Definition try_finally {A} (m : py A) (cleanup : list action) : py A :=
  ((m.1 ++ cleanup)%list, m.2).

Definition trace {A} (m : py A) : list action := m.1.
Definition result {A} (m : py A) : outcome A := m.2.

(** Exit status of the interpreter for a script whose body is [m]: 0 when
    it runs to the end, the code of a [SystemExit], 1 for an uncaught
    exception and 130 for an uncaught interrupt. *)
Definition exit_status {A} (m : py A) : Z :=
  match m.2 with
  | Returns _ => 0
  | Raises (SystemExit code) => code
  | Raises KeyboardInterrupt => 130
  | Raises _ => 1
  end.

(** Sequencing is written with the [x ← m; k] and [m;; k] notations. *)
#[global] Instance py_ret : MRet py := @ret.
#[global] Instance py_bind : MBind py := λ A B k m, bind m k.

End Py.

Import Py.

(* ===================================================================== *)
(** * The validator *)
(* ===================================================================== *)

Module Validator.

(** [event_log[col]], raising [KeyError] for a missing label. *)
Definition subscript (event_log : DataFrame) (col : string) : py (list cell) :=
  match getitem event_log col with
  | Some s => ret s
  | None => raise (Exception Other_Exception)
  end.

Definition required_columns : list string :=
  ["case_id"; "activity_name"; "transformed_time"].

(** [len(unique_teams) != 1 or unique_teams[0] != 'NE'] *)
Definition not_only_NE (unique_teams : list cell) : bool :=
  bool_decide (length unique_teams ≠ 1%nat)
  || bool_decide (unique_teams !! 0%nat ≠ Some (Str "NE")).

(** The end of [validate_transformation], from "Basic statistics" on. *)
Definition basic_statistics (event_log : DataFrame) : py bool :=
  let num_events := len event_log in
  case_id ← subscript event_log "case_id";
  let num_cases := nunique case_id in
  activity_name ← subscript event_log "activity_name";
  let num_activities := nunique activity_name in
  print (ValidationPassed num_events num_cases num_activities);;
  ret true.

Definition validate_transformation (event_log : DataFrame) : py bool :=
  print (Progress "Validating transformation results...");;
  let missing_columns :=
    filter (λ col, col ∉ columns event_log) required_columns in
  if bool_decide (missing_columns ≠ []) then
    print (Violation (MissingColumns missing_columns));; ret false
  else if empty event_log then
    print (Violation EmptyLog);; ret false
  else
    case_id ← subscript event_log "case_id";
    if isna_any case_id then
      print (Violation NullCaseId);; ret false
    else
      activity_name ← subscript event_log "activity_name";
      if isna_any activity_name then
        print (Violation NullActivityName);; ret false
      else if has_column event_log "posteam" then
        posteam ← subscript event_log "posteam";
        let unique_teams := unique posteam in
        if not_only_NE unique_teams then
          print (Violation (UnexpectedTeams unique_teams));; ret false
        else basic_statistics event_log
      else basic_statistics event_log.


(** ** The checks one by one

    The conditions of the five [if] statements of
    [validate_transformation], each as a function that yields the
    violation it reports. *)

Definition check_columns (event_log : DataFrame) : option violation :=
  let missing_columns :=
    filter (λ col, col ∉ columns event_log) required_columns in
  if bool_decide (missing_columns ≠ []) then Some (MissingColumns missing_columns)
  else None.

Definition check_nonempty (event_log : DataFrame) : option violation :=
  if empty event_log then Some EmptyLog else None.

Definition check_case_id (event_log : DataFrame) : option violation :=
  if isna_any (column event_log "case_id") then Some NullCaseId else None.

Definition check_activity_name (event_log : DataFrame) : option violation :=
  if isna_any (column event_log "activity_name") then Some NullActivityName
  else None.

Definition check_posteam (event_log : DataFrame) : option violation :=
  let unique_teams := unique (column event_log "posteam") in
  if has_column event_log "posteam" && not_only_NE unique_teams
  then Some (UnexpectedTeams unique_teams) else None.

Definition checks : list (DataFrame → option violation) :=
  [check_columns; check_nonempty; check_case_id; check_activity_name;
   check_posteam].

(** Every check that fails on a log, in the order of the checks, and the
    first of them. *)
Definition violations (event_log : DataFrame) : list violation :=
  omap (λ check, check event_log) checks.

Definition first_violation (event_log : DataFrame) : option violation :=
  list.head (violations event_log).

(** What a run of the validator amounts to, given the first failing
    check. *)
Definition verdict (event_log : DataFrame) : py bool :=
  print (Progress "Validating transformation results...");;
  match first_violation event_log with
  | Some v => print (Violation v);; ret false
  | None =>
      print (ValidationPassed (len event_log)
               (nunique (column event_log "case_id"))
               (nunique (column event_log "activity_name")));;
      ret true
  end.

(** ** The validator in the words of the specification

    Section 4.3 lists five checks; the fifth reads "exactly one distinct
    value in the possession-team column".  The validator so described
    passes a log when all five hold. *)
Definition spec_checks (event_log : DataFrame) : list bool :=
  [forallb (has_column event_log) required_columns;
   negb (empty event_log);
   negb (isna_any (column event_log "case_id"));
   negb (isna_any (column event_log "activity_name"));
   bool_decide (length (unique (column event_log "posteam")) = 1%nat)].

Definition spec_validate (event_log : DataFrame) : bool :=
  forallb id (spec_checks event_log).

End Validator.

Import Validator.

(* ===================================================================== *)
(** * The pipeline *)
(* ===================================================================== *)

Module Pipeline.

Definition DATA_URL : string :=
  "https://github.com/nflverse/nflverse-data/releases/download/pbp/play_by_play_2007.csv".
Definition SQL_FILE : string := "src/transform_data.sql".
Definition OUTPUT_DIR : string := "outputs".
Definition OUTPUT_FILE : string := "outputs/nfl_eventlog.csv".

(** Everything outside the driver: the network, the file system and the
    SQLite engine with the ruleset it is given.  [read_statements] is the
    text of a file cut into statements (the list comprehension on
    [sql_content]); [execute i s] is [conn.execute] on the statement [s]
    at position [i], the database being part of the world. *)
Record world : Type := {
  read_csv : string → external DataFrame;
  to_sql : DataFrame → string → external unit;
  read_statements : string → external (list string);
  execute : nat → string → external unit;
  read_sql : string → external DataFrame;
  mkdir : string → external unit;
  to_csv : DataFrame → string → external unit
}.

Section Driver.
Variable w : world.

Definition download_nflverse_data : py DataFrame :=
  print (Progress "Downloading NFL 2007 play-by-play data from nflverse...");;
  try_except
    (df ← call (read_csv w DATA_URL);
     print (Progress "Downloaded plays from nflverse");;
     ret df)
    [(is_Exception, λ e, print DownloadError;; sys_exit 1)].

(** The [for i, statement in enumerate(statements)] loop. *)
Fixpoint run_statements (i : nat) (statements : list string) : py unit :=
  match statements with
  | [] => ret tt
  | statement :: rest =>
      (if bool_decide (statement ≠ "") && negb (String.prefix "--" statement) then
         try_except (call (execute w i statement))
           [(is_sqlite3_Error, λ e, print (SqlStatementError (i + 1));; raise e)]
       else ret tt);;
      run_statements (S i) rest
  end.

(** The suite of the [try] statement of [execute_sql_transformation]. *)
Definition transformation_suite (raw_data : DataFrame) : py DataFrame :=
  print (Progress "Loading data into SQLite...");;
  call (to_sql w raw_data "raw_data");;
  print (Progress "Executing transformation SQL...");;
  statements ← call (read_statements w SQL_FILE);
  run_statements 0 statements;;
  print (Progress "Extracting transformed event log...");;
  event_log ← call (read_sql w "SELECT * FROM final_cleaned_dataset");
  ret event_log.

Definition execute_sql_transformation (raw_data : DataFrame) : py DataFrame :=
  print (Progress "Executing SQL transformation pipeline...");;
  try_finally
    (try_except (transformation_suite raw_data)
       [(is_Exception, λ e, print TransformationFailed;; sys_exit 1)])
    [CloseConnection].

Definition save_output (event_log : DataFrame) : py unit :=
  print (Progress "Saving event log...");;
  perform (Mkdir OUTPUT_DIR) (mkdir w OUTPUT_DIR);;
  perform (WriteCsv OUTPUT_FILE event_log) (to_csv w event_log OUTPUT_FILE);;
  print (Saved OUTPUT_FILE).

Definition sample_columns : list string :=
  ["case_id"; "activity_name"; "transformed_time"; "down"; "yards_gained"].

Definition display_sample_output (event_log : DataFrame) : py unit :=
  print (Progress "Sample Event Log Output:");;
  let available_columns :=
    filter (λ col, col ∈ columns event_log) sample_columns in
  let sample_data := head 10 (select event_log available_columns) in
  print (Sample sample_data);;
  print (Progress "Activity Distribution (Top 10):");;
  activity_name ← subscript event_log "activity_name";
  let activity_counts := take 10 (value_counts activity_name) in
  foldr (λ '(activity, count) rest, print (ActivityCount activity count);; rest)
    (ret tt) activity_counts.

(** The suite of the [try] statement of [main]. *)
Definition main_suite : py unit :=
  raw_data ← download_nflverse_data;
  event_log ← execute_sql_transformation raw_data;
  valid ← validate_transformation event_log;
  (if negb valid then print ValidationFailed;; sys_exit 1 else ret tt);;
  save_output event_log;;
  display_sample_output event_log;;
  print (Progress "Transformation complete! Event log ready for process mining analysis.").

Definition main : py unit :=
  print (Progress "NFL Process Mining Transformation Pipeline");;
  try_except main_suite
    [(is_KeyboardInterrupt, λ e, print Cancelled;; sys_exit 0);
     (is_Exception, λ e, print UnexpectedError;; sys_exit 1)].

End Driver.

(** ** The file system the actions act on *)

Record filesystem : Type := {
  dirs : gset string;
  files : gmap string DataFrame
}.

(** Effect of a completed action: [mkdir(exist_ok=True)] adds the
    directory when it is absent, [to_csv] replaces the content of the
    file. *)
Definition effect (fs : filesystem) (a : action) : filesystem :=
  match a with
  | Mkdir d => {| dirs := {[d]} ∪ dirs fs; files := files fs |}
  | WriteCsv path df => {| dirs := dirs fs; files := <[path := df]> (files fs) |}
  | _ => fs
  end.

Definition effects (fs : filesystem) (t : list action) : filesystem :=
  foldl effect fs t.

(** The files a run wrote or started to write. *)
Definition writes (t : list action) : list (string * DataFrame) :=
  omap (λ a, match a with WriteCsv path df => Some (path, df) | _ => None end) t.

(** An action on the file system. *)
Definition touches_files (a : action) : bool :=
  match a with Mkdir _ | WriteCsv _ _ => true | _ => false end.

(** The displays of section 4.4: the three counts, the sample of rows and
    the lines of the activity ranking. *)
Definition displays_counts (a : action) : bool :=
  match a with Print (ValidationPassed _ _ _) => true | _ => false end.

Definition displays_sample (a : action) : bool :=
  match a with Print (Sample _) | Print (ActivityCount _ _) => true | _ => false end.

(** Actions that neither touch the file system nor display counts, a
    sample or a ranking. *)
Definition silent (t : list action) : Prop :=
  Forall (λ a, touches_files a = false ∧ displays_counts a = false
               ∧ displays_sample a = false) t.

(** An outcome other than a [SystemExit]. *)
Definition no_exit {A} (o : outcome A) : Prop :=
  match o with Raises (SystemExit _) => False | _ => True end.

(** The activity ranking a run displayed. *)
Definition ranking (t : list action) : list (cell * nat) :=
  omap (λ a, match a with Print (ActivityCount c n) => Some (c, n) | _ => None end) t.

(** The actions of a run whose download succeeds, up to the end of the
    transformation suite. *)
Definition opening (w : world) (raw_data : DataFrame) : list action :=
  [Print (Progress "NFL Process Mining Transformation Pipeline");
   Print (Progress "Downloading NFL 2007 play-by-play data from nflverse...");
   Print (Progress "Downloaded plays from nflverse");
   Print (Progress "Executing SQL transformation pipeline...")]
  ++ trace (transformation_suite w raw_data).

(** The actions of the validator on a log that passes. *)
Definition passing (event_log : DataFrame) : list action :=
  [Print (Progress "Validating transformation results...");
   Print (ValidationPassed (len event_log)
            (nunique (column event_log "case_id"))
            (nunique (column event_log "activity_name")))].

(** The actions of [display_sample_output] and the closing line. *)
Definition closing (event_log : DataFrame) : list action :=
  [Print (Progress "Sample Event Log Output:");
   Print (Sample (head 10 (select event_log
                   (filter (λ col, col ∈ columns event_log) sample_columns))));
   Print (Progress "Activity Distribution (Top 10):")]
  ++ ((λ '(activity, count), Print (ActivityCount activity count))
        <$> take 10 (value_counts (column event_log "activity_name")))
  ++ [Print (Progress "Transformation complete! Event log ready for process mining analysis.")].

(** ** How a run ends *)

Inductive ending : Type :=
| Success
| AcquisitionFailure
| TransformationFailure
| ValidationFailure
| PersistenceFailure
| Cancellation.

(** The exit code section 6 gives each ending. *)
Definition exit_code (e : ending) : Z :=
  match e with
  | Success | Cancellation => 0
  | _ => 1
  end.

(** The ending of a run, read off what the world does at each stage: an
    exception or an interrupt in the download, inside the transformation,
    or in one of the two calls of the persist step, or a validator that
    finds a violation. *)
Inductive ended (w : world) : ending → Prop :=
| acquisition_failed e :
    read_csv w DATA_URL = Fails e →
    ended w AcquisitionFailure
| acquisition_cancelled :
    read_csv w DATA_URL = Interrupted →
    ended w Cancellation
| transformation_failed raw_data e :
    read_csv w DATA_URL = Ok raw_data →
    result (transformation_suite w raw_data) = Raises (Exception e) →
    ended w TransformationFailure
| transformation_cancelled raw_data :
    read_csv w DATA_URL = Ok raw_data →
    result (transformation_suite w raw_data) = Raises KeyboardInterrupt →
    ended w Cancellation
| validation_failed raw_data event_log v :
    read_csv w DATA_URL = Ok raw_data →
    result (transformation_suite w raw_data) = Returns event_log →
    first_violation event_log = Some v →
    ended w ValidationFailure
| mkdir_failed raw_data event_log e :
    read_csv w DATA_URL = Ok raw_data →
    result (transformation_suite w raw_data) = Returns event_log →
    first_violation event_log = None →
    mkdir w OUTPUT_DIR = Fails e →
    ended w PersistenceFailure
| mkdir_cancelled raw_data event_log :
    read_csv w DATA_URL = Ok raw_data →
    result (transformation_suite w raw_data) = Returns event_log →
    first_violation event_log = None →
    mkdir w OUTPUT_DIR = Interrupted →
    ended w Cancellation
| to_csv_failed raw_data event_log e :
    read_csv w DATA_URL = Ok raw_data →
    result (transformation_suite w raw_data) = Returns event_log →
    first_violation event_log = None →
    mkdir w OUTPUT_DIR = Ok tt →
    to_csv w event_log OUTPUT_FILE = Fails e →
    ended w PersistenceFailure
| to_csv_cancelled raw_data event_log :
    read_csv w DATA_URL = Ok raw_data →
    result (transformation_suite w raw_data) = Returns event_log →
    first_violation event_log = None →
    mkdir w OUTPUT_DIR = Ok tt →
    to_csv w event_log OUTPUT_FILE = Interrupted →
    ended w Cancellation
| succeeded raw_data event_log :
    read_csv w DATA_URL = Ok raw_data →
    result (transformation_suite w raw_data) = Returns event_log →
    first_violation event_log = None →
    mkdir w OUTPUT_DIR = Ok tt →
    to_csv w event_log OUTPUT_FILE = Ok tt →
    ended w Success.

End Pipeline.

Import Pipeline.

(* ===================================================================== *)
(** * The transformation ruleset *)
(* ===================================================================== *)

(** The ruleset [src/transform_data.sql] that [execute_sql_transformation]
    hands to SQLite, and the columns of the feed it reads, are not part of
    the sources at hand; the definitions of this module follow section 4.2
    of the specification. *)
Module Ruleset.

(** Modelled from the spec: a row of the feed ("RawPlay", section 3),
    whose columns the driver never names: team on offense, game and drive
    identifiers, down, play type, yards gained, outcome flags and the raw
    time-of-play indicator. *)
Record RawPlay : Type := {
  posteam : option string;
  game_id : string;
  drive : Z;
  down : option Z;
  play_type : option string;
  yards_gained : option Z;
  touchdown : bool;
  turnover : bool;
  raw_time : Z
}.

(** Modelled from the spec: a row of the event log ("EventRecord",
    section 3), of which the driver only names columns: the three
    required fields and the passthrough fields.  The activity label is
    what a SQL [CASE] expression yields, which may be NULL. *)
Record EventRecord (CaseId : Type) : Type := {
  case_id : CaseId;
  activity_name : option string;
  transformed_time : Z;
  event_down : option Z;
  event_yards_gained : option Z;
  event_posteam : option string
}.
Arguments case_id {CaseId} e.
Arguments activity_name {CaseId} e.
Arguments transformed_time {CaseId} e.
Arguments event_down {CaseId} e.
Arguments event_yards_gained {CaseId} e.
Arguments event_posteam {CaseId} e.

#[global] Instance EventRecord_eq_dec `{EqDecision CaseId} :
  EqDecision (EventRecord CaseId).
Proof. solve_decision. Defined.

(** Modelled from the spec: the expression behind step 3, absent with the
    ruleset: a SQL [CASE WHEN c1 THEN l1 WHEN c2 THEN l2 ... [ELSE l] END]
    over a row: the label of the first branch whose condition holds, the [ELSE]
    label when none does, and NULL when there is no [ELSE]. *)
Fixpoint sql_case {R L : Type} (branches : list ((R → bool) * L))
    (otherwise : option L) (r : R) : option L :=
  match branches with
  | [] => otherwise
  | (condition, label) :: rest =>
      if condition r then Some label else sql_case rest otherwise r
  end.

Section Stages.
(** What section 4.2 leaves to the ruleset: the configured team, the
    identifier given to a (game, drive) pair and its order, the
    prioritized classification rules with their fallback label, and the
    function of the raw chronological field that gives the time. *)
Context {CaseId : Type} (case_le : relation CaseId).
Context `{!RelDecision case_le, !EqDecision CaseId}.
Variable configured_team : string.
Variable derive_case_id : string → Z → CaseId.
Variable rules : list ((RawPlay → bool) * string).
Variable fallback : string.
Variable derive_time : Z → Z.

(** Modelled from the spec: step 1, the scoping predicate
    [possession_team == configured_team]. *)
Definition scoping (r : RawPlay) : bool :=
  bool_decide (posteam r = Some configured_team).

(** Modelled from the spec: step 3, the activity label: a total
    function over the prioritized rules with a defined fallback. *)
Definition derive_activity (r : RawPlay) : option string :=
  sql_case rules (Some fallback) r.

(** Modelled from the spec: steps 2 to 5 on one row: case, activity and
    time derivation, then the projection on the retained columns. *)
Definition to_event (r : RawPlay) : EventRecord CaseId :=
  {| case_id := derive_case_id (game_id r) (drive r);
     activity_name := derive_activity r;
     transformed_time := derive_time (raw_time r);
     event_down := down r;
     event_yards_gained := yards_gained r;
     event_posteam := posteam r |}.

(** Modelled from the spec: the feed with the original index of every row,
    the secondary key of step 4. *)
Definition indexed (feed : list RawPlay) : list (nat * RawPlay) :=
  imap (λ i r, (i, r)) feed.

(** Modelled from the spec: steps 1 to 5 as views over the indexed
    feed. *)
Definition derived (feed : list RawPlay) : list (nat * EventRecord CaseId) :=
  prod_map id to_event <$> filter (λ ir, scoping ir.2 = true) (indexed feed).

(** Modelled from the spec: step 6, the order by (case_id,
    transformed_time) ascending: by case, and by time within a case. *)
Definition key_le (e1 e2 : EventRecord CaseId) : Prop :=
  case_le (case_id e1) (case_id e2)
  ∧ (case_le (case_id e2) (case_id e1) →
     transformed_time e1 ≤ transformed_time e2).

(** Modelled from the spec: the same order with the tie-break of step 4
    and section 9, the original row index. *)
Definition row_le (x y : nat * EventRecord CaseId) : Prop :=
  key_le x.2 y.2 ∧ (key_le y.2 x.2 → (x.1 ≤ y.1)%nat).

#[global] Instance key_le_dec : RelDecision key_le.
Proof. intros e1 e2. unfold key_le. apply _. Defined.

#[global] Instance row_le_dec : RelDecision row_le.
Proof. intros x y. unfold row_le. apply _. Defined.

(** Modelled from the spec: the whole transformation, the relation
    [final_cleaned_dataset] read back in its order. *)
Definition transform (feed : list RawPlay) : list (EventRecord CaseId) :=
  snd <$> merge_sort row_le (derived feed).

(** Modelled from the spec: what section 4.2 and the determinism
    property ask of the output of a run on [feed], whatever sort the
    engine uses: the derived rows, each once, in the order of step 6
    with ties in original row order. *)
Definition conforms (feed : list RawPlay) (out : list (EventRecord CaseId)) : Prop :=
  ∃ l, out = snd <$> l ∧ l ≡ₚ derived feed ∧ Sorted row_le l.

End Stages.

End Ruleset.

Import Ruleset.


(* ===================================================================== *)
(** * The guard of the statement loop *)
(* ===================================================================== *)

(** The condition under which the loop of [execute_sql_transformation] hands
    a statement to [conn.execute]:
    [statement and not statement.startswith('--')]. *)
Definition executable (statement : string) : bool :=
  bool_decide (statement ≠ "") && negb (String.prefix "--" statement).

(* ===================================================================== *)
(** * Sample logs, worlds and feeds *)
(* ===================================================================== *)

Module Samples.

Definition log_columns : list string :=
  ["case_id"; "activity_name"; "transformed_time"; "posteam"].

(** Three New England events in two drives. *)
Definition ne_log : DataFrame :=
  mkFrame log_columns
    [[Str "2007_01_1"; Str "Rush"; Int 1; Str "NE"];
     [Str "2007_01_1"; Str "Pass"; Int 2; Str "NE"];
     [Str "2007_01_2"; Str "Pass"; Int 3; Str "NE"]].

(** The same events attributed to Dallas: one team, but not NE. *)
Definition dal_log : DataFrame :=
  mkFrame log_columns
    [[Str "2007_01_1"; Str "Rush"; Int 1; Str "DAL"];
     [Str "2007_01_1"; Str "Pass"; Int 2; Str "DAL"];
     [Str "2007_01_2"; Str "Pass"; Int 3; Str "DAL"]].


(** A log without the possession-team column. *)
Definition no_team_log : DataFrame :=
  mkFrame ["case_id"; "activity_name"; "transformed_time"]
    [[Str "2007_01_1"; Str "Rush"; Int 1];
     [Str "2007_01_1"; Str "Pass"; Int 2]].

(** A log failing three checks at once: a missing case, a missing
    activity and a second team. *)
Definition corrupted_log : DataFrame :=
  mkFrame log_columns
    [[Str "2007_01_1"; Str "Rush"; Int 1; Str "NE"];
     [Null; Null; Int 2; Str "NYJ"]].

Definition raw_frame : DataFrame :=
  mkFrame ["game_id"; "posteam"] [[Str "2007_01"; Str "NE"]].

(** A world where every call succeeds and the ruleset, of three
    statements, yields [out]. *)
Definition calm (out : DataFrame) : world :=
  {| read_csv := λ _, Ok raw_frame;
     to_sql := λ _ _, Ok tt;
     read_statements := λ _, Ok ["CREATE VIEW a AS SELECT 1"; "-- note"; "CREATE VIEW b AS SELECT 2"];
     execute := λ _ _, Ok tt;
     read_sql := λ _, Ok out;
     mkdir := λ _, Ok tt;
     to_csv := λ _ _, Ok tt |}.

(** Worlds that differ from [calm ne_log] at one call. *)
Definition offline : world :=
  {| read_csv := λ _, Fails Other_Exception;
     to_sql := to_sql (calm ne_log);
     read_statements := read_statements (calm ne_log);
     execute := execute (calm ne_log);
     read_sql := read_sql (calm ne_log);
     mkdir := mkdir (calm ne_log);
     to_csv := to_csv (calm ne_log) |}.

Definition bad_statement : world :=
  {| read_csv := read_csv (calm ne_log);
     to_sql := to_sql (calm ne_log);
     read_statements := read_statements (calm ne_log);
     execute := λ i _, if decide (i = 2%nat) then Fails sqlite3_Error else Ok tt;
     read_sql := read_sql (calm ne_log);
     mkdir := mkdir (calm ne_log);
     to_csv := to_csv (calm ne_log) |}.

Definition interrupted_statement : world :=
  {| read_csv := read_csv (calm ne_log);
     to_sql := to_sql (calm ne_log);
     read_statements := read_statements (calm ne_log);
     execute := λ i _, if decide (i = 2%nat) then Interrupted else Ok tt;
     read_sql := read_sql (calm ne_log);
     mkdir := mkdir (calm ne_log);
     to_csv := to_csv (calm ne_log) |}.

(** An initial file system with an older output in place. *)
Definition stale : filesystem :=
  {| dirs := {[ OUTPUT_DIR ]}; files := {[ OUTPUT_FILE := dal_log ]} |}.

(** A feed of five plays, four of them of the configured team, with a
    ruleset of two rules: drives are numbered within one game. *)
Definition play (team : string) (d t : Z) (kind : option string) : RawPlay :=
  {| posteam := Some team; game_id := "2007_01"; drive := d; down := Some 1;
     play_type := kind; yards_gained := Some 3; touchdown := false;
     turnover := false; raw_time := t |}.

Definition feed : list RawPlay :=
  [play "NE" 2 5 (Some "run"); play "NYJ" 1 4 None; play "NE" 1 7 None;
   play "NE" 1 7 (Some "run"); play "NE" 1 3 None].

Definition rules : list ((RawPlay → bool) * string) :=
  [(touchdown, "Touchdown");
   (λ r, bool_decide (play_type r = Some "run"), "Run")].

Definition sample_transform : list RawPlay → list (EventRecord Z) :=
  transform Z.le "NE" (λ _ d, d) rules "Other" id.

Definition event (d t : Z) (label : string) : EventRecord Z :=
  {| case_id := d; activity_name := Some label; transformed_time := t;
     event_down := Some 1; event_yards_gained := Some 3;
     event_posteam := Some "NE" |}.

(** The rows expected from [feed], with their original index: drive 1
    before drive 2, by time within a drive, the two plays at time 7 in the
    order of the feed. *)
Definition expected_rows : list (nat * EventRecord Z) :=
  [(4%nat, event 1 3 "Other"); (2%nat, event 1 7 "Other");
   (3%nat, event 1 7 "Run"); (0%nat, event 2 5 "Run")].

End Samples.

Module MoreSamples.

(** The log [Samples.ne_log] with its times blanked out, a column added
    and a short last row. *)
Definition untimed_log : DataFrame :=
  mkFrame ["case_id"; "activity_name"; "transformed_time"; "posteam"; "note"]
    [[Str "2007_01_1"; Str "Rush"; Null; Str "NE"; Int 7];
     [Str "2007_01_1"; Str "Pass"; Null; Str "NE"; Null];
     [Str "2007_01_2"; Str "Pass"; Null; Str "NE"]].

(** The statements the world [Samples.calm] reads from the ruleset. *)
Definition three_statements : list string :=
  ["CREATE VIEW a AS SELECT 1"; "-- note"; "CREATE VIEW b AS SELECT 2"].

End MoreSamples.

(* ===================================================================== *)
(** * Properties of frames and of the control flow *)
(* ===================================================================== *)

Section FrameFacts.

Lemma getitem_present df col :
  col ∈ columns df → getitem df col = Some (column df col).
Proof.
  intros Hin. unfold column, getitem, position.
  destruct (list_find_elem_of (λ c, c = col) (columns df) col Hin eq_refl)
    as [[i c] Hfind].
  by rewrite Hfind.
Qed.



Lemma subscript_present df col :
  col ∈ columns df → subscript df col = ret (column df col).
Proof. intros H. unfold subscript. by rewrite getitem_present. Qed.

Lemma elem_of_unique c s : c ∈ unique s ↔ c ∈ s.
Proof.
  induction s as [|d s IH]; simpl; [done|].
  rewrite !elem_of_cons, list_elem_of_filter, IH.
  destruct (decide (c = d)); naive_solver.
Qed.

Lemma NoDup_unique s : NoDup (unique s).
Proof.
  induction s as [|d s IH]; simpl; [constructor|].
  constructor; [|by apply NoDup_filter].
  rewrite list_elem_of_filter. naive_solver.
Qed.

Lemma filter_nil_Forall {A} (P : A → Prop) `{!∀ x, Decision (P x)} (l : list A) :
  filter P l = [] ↔ Forall (λ x, ¬ P x) l.
Proof.
  induction l as [|x l IH]; [by rewrite Forall_nil|].
  rewrite filter_cons, Forall_cons. destruct (decide (P x)); [|tauto].
  split; [done|]. by intros [? _].
Qed.

Lemma unique_nil_inv s : unique s = [] → s = [].
Proof. by destruct s. Qed.

(** *** The ranking of [value_counts] *)

Lemma rank_insert_Permutation p r : rank_insert p r ≡ₚ p :: r.
Proof.
  induction r as [|q r IH]; cbn; [done|].
  case_decide; [done|]. by rewrite IH, Permutation_swap.
Qed.

Lemma rank_insert_HdRel q p r :
  (p.2 ≤ q.2)%nat →
  HdRel (λ x y, (y.2 ≤ x.2)%nat) q r →
  HdRel (λ x y, (y.2 ≤ x.2)%nat) q (rank_insert p r).
Proof.
  intros Hp Hr. destruct Hr as [|r' q' Hq]; cbn; [by constructor|].
  case_decide; by constructor.
Qed.

Lemma rank_insert_Sorted p r :
  Sorted (λ x y, (y.2 ≤ x.2)%nat) r →
  Sorted (λ x y, (y.2 ≤ x.2)%nat) (rank_insert p r).
Proof.
  induction 1 as [|q r Hr IH Hq]; cbn; [by repeat constructor|].
  case_decide.
  - repeat constructor; [done..|lia].
  - constructor; [done|]. apply rank_insert_HdRel; [lia|done].
Qed.

Lemma foldr_rank_insert_Sorted l :
  Sorted (λ x y, (y.2 ≤ x.2)%nat) (foldr rank_insert [] l).
Proof.
  induction l as [|p l IH]; cbn; [constructor|]. by apply rank_insert_Sorted.
Qed.

Lemma foldr_rank_insert_Permutation l : foldr rank_insert [] l ≡ₚ l.
Proof.
  induction l as [|p l IH]; cbn; [done|].
  by rewrite rank_insert_Permutation, IH.
Qed.

Lemma value_counts_Sorted s :
  Sorted (λ x y, (y.2 ≤ x.2)%nat) (value_counts s).
Proof. apply foldr_rank_insert_Sorted. Qed.

Lemma value_counts_Permutation s :
  value_counts s ≡ₚ
  (λ c, (c, occurrences c (filter (λ c, isna c = false) s)))
    <$> unique (filter (λ c, isna c = false) s).
Proof.
  unfold value_counts. etrans; [apply foldr_rank_insert_Permutation|].
  apply reverse_Permutation.
Qed.

Lemma occurrences_filter_notna c s :
  isna c = false →
  occurrences c (filter (λ c, isna c = false) s) = occurrences c s.
Proof.
  intros Hc. unfold occurrences. rewrite list_filter_filter.
  f_equal. apply list_filter_iff. intros d. split; [tauto|].
  intros ->. done.
Qed.

(** Every entry of the ranking is a value of the series, not missing, with
    its number of occurrences; every such value has one entry. *)
Lemma elem_of_value_counts c n s :
  (c, n) ∈ value_counts s ↔ c ∈ s ∧ isna c = false ∧ n = occurrences c s.
Proof.
  rewrite value_counts_Permutation, list_elem_of_fmap. split.
  - intros (d & [= -> ->] & Hd).
    apply elem_of_unique, list_elem_of_filter in Hd as [Hna Hd].
    by rewrite occurrences_filter_notna.
  - intros (Hc & Hna & ->). exists c.
    rewrite occurrences_filter_notna by done. split; [done|].
    by apply elem_of_unique, list_elem_of_filter.
Qed.

Lemma value_counts_NoDup s : NoDup ((value_counts s).*1).
Proof.
  rewrite value_counts_Permutation, <-list_fmap_compose.
  erewrite list_fmap_ext; [|by intros i x _].
  rewrite list_fmap_id. apply NoDup_unique.
Qed.

End FrameFacts.

(* ===================================================================== *)
(** * The validator: checks, order and verdict *)
(* ===================================================================== *)

Section ValidatorFacts.

Lemma check_columns_None df :
  check_columns df = None ↔ ∀ col, col ∈ required_columns → col ∈ columns df.
Proof.
  unfold check_columns. case_bool_decide as Hm.
  - split; [done|]. intros Hall. exfalso. apply Hm.
    apply filter_nil_Forall, Forall_forall. intros col Hc Hn. exact (Hn (Hall col Hc)).
  - split; [|done]. intros _ col Hc.
    apply filter_nil_Forall in Hm. rewrite Forall_forall in Hm.
    apply dec_stable. exact (Hm col Hc).
Qed.

(** The validator is the verdict on the first failing check. *)
Lemma validate_transformation_verdict df :
  validate_transformation df = verdict df.
Proof.
  unfold validate_transformation, verdict, first_violation, violations, checks.
  cbn [omap list_omap].
  destruct (check_columns df) as [v|] eqn:Hcols.
  { unfold check_columns in Hcols. case_bool_decide; [|done].
    by injection Hcols as <-. }
  pose proof (proj1 (check_columns_None df) Hcols) as Hreq.
  assert (filter (λ col, col ∉ columns df) required_columns = []) as ->.
  { unfold check_columns in Hcols. by case_bool_decide as Hm. }
  rewrite bool_decide_false by (by intros ?).
  unfold check_nonempty. destruct (empty df) eqn:Hempty; [done|].
  assert ("case_id" ∈ columns df) as Hc by (apply Hreq; set_solver).
  assert ("activity_name" ∈ columns df) as Ha by (apply Hreq; set_solver).
  unfold basic_statistics. rewrite !(subscript_present _ _ Hc), !(subscript_present _ _ Ha).
  unfold check_case_id.
  cbn [mbind py_bind bind ret snd fst].
  destruct (isna_any (column df "case_id")); [done|].
  unfold check_activity_name.
  destruct (isna_any (column df "activity_name")); [done|].
  unfold check_posteam, has_column.
  case_bool_decide as Hp; cbn [andb].
  - rewrite (subscript_present _ _ Hp). cbn [mbind py_bind bind ret snd fst].
    by destruct (not_only_NE _).
  - done.
Qed.

Lemma not_only_NE_false u : not_only_NE u = false ↔ u = [Str "NE"].
Proof.
  unfold not_only_NE. rewrite orb_false_iff, !bool_decide_eq_false.
  split.
  - intros [Hlen Hhd]. apply dec_stable in Hlen. apply dec_stable in Hhd.
    destruct u as [|c [|d u]]; simplify_eq/=. done.
  - intros ->. split; by intros H; apply H.
Qed.

Lemma violations_nil df :
  violations df = [] ↔
  check_columns df = None ∧ check_nonempty df = None ∧ check_case_id df = None
  ∧ check_activity_name df = None ∧ check_posteam df = None.
Proof.
  unfold violations, checks. cbn [omap list_omap].
  destruct (check_columns df), (check_nonempty df), (check_case_id df),
    (check_activity_name df), (check_posteam df); naive_solver.
Qed.

Lemma first_violation_None df : first_violation df = None ↔ violations df = [].
Proof. unfold first_violation. by destruct (violations df). Qed.

Lemma result_validate df :
  result (validate_transformation df) = Returns (bool_decide (violations df = [])).
Proof.
  rewrite validate_transformation_verdict. unfold verdict, first_violation.
  by destruct (violations df).
Qed.


Lemma check_posteam_None df :
  check_posteam df = None ↔
  (has_column df "posteam" = true → unique (column df "posteam") = [Str "NE"]).
Proof.
  unfold check_posteam. destruct (has_column df "posteam"); cbn [andb].
  - destruct (not_only_NE _) eqn:Hn.
    + split; [done|]. intros H. apply not_only_NE_false in H; [congruence|done].
    + apply not_only_NE_false in Hn. naive_solver.
  - naive_solver.
Qed.

End ValidatorFacts.

(* ===================================================================== *)
(** * The validator: stated properties *)
(* ===================================================================== *)

Section ValidatorProperties.

(** C1, as the specification words it, fails on a log whose possession
    team is a single team other than NE: the five listed checks hold, yet
    the validator returns failure. *)
Lemma C1_single_other_team_rejected :
  spec_validate Samples.dal_log = true
  ∧ result (validate_transformation Samples.dal_log) = Returns false.
Proof. split; reflexivity. Qed.

(** C1, amended: the validator performs the checks of [checks] in that
    order (required columns, non-empty, no null case_id, no null
    activity_name, and, only when the posteam column is present, its
    distinct values being exactly NE): it reports the violation of the
    first check that fails and returns failure, and returns success when
    none fails. *)
Theorem C1_checks_in_order (event_log : DataFrame) :
  validate_transformation event_log = verdict event_log
  ∧ (result (validate_transformation event_log) = Returns true
     ↔ Forall (λ check, check event_log = None) checks)
  ∧ (∀ i check v,
       checks !! i = Some check → check event_log = Some v →
       (∀ j earlier, (j < i)%nat → checks !! j = Some earlier →
                     earlier event_log = None) →
       validate_transformation event_log
       = (print (Progress "Validating transformation results...");;
          print (Violation v);; ret false))
  ∧ (check_posteam event_log = None
     ↔ (has_column event_log "posteam" = true →
        unique (column event_log "posteam") = [Str "NE"])).
Proof.
  split_and!.
  - apply validate_transformation_verdict.
  - rewrite result_validate. unfold checks.
    rewrite !Forall_cons, Forall_nil.
    split.
    + intros [= H%bool_decide_eq_true]. apply violations_nil in H. tauto.
    + intros H. f_equal. apply bool_decide_eq_true, violations_nil. tauto.
  - intros i check v Hi Hv Hearlier.
    rewrite validate_transformation_verdict. unfold verdict.
    assert (first_violation event_log = Some v) as ->; [|done].
    unfold first_violation, violations, checks in *.
    assert (∀ j earlier, (j < i)%nat →
              [check_columns; check_nonempty; check_case_id;
               check_activity_name; check_posteam] !! j = Some earlier →
              earlier event_log = None) as He by eauto.
    clear Hearlier.
    destruct i as [|[|[|[|[|i]]]]]; simplify_eq/=;
      try rewrite (He 0%nat check_columns ltac:(lia) eq_refl);
      try rewrite (He 1%nat check_nonempty ltac:(lia) eq_refl);
      try rewrite (He 2%nat check_case_id ltac:(lia) eq_refl);
      try rewrite (He 3%nat check_activity_name ltac:(lia) eq_refl);
      by rewrite Hv.
  - apply check_posteam_None.
Qed.

Lemma C1_checks_in_order_witness :
  validate_transformation Samples.corrupted_log
  = (print (Progress "Validating transformation results...");;
     print (Violation NullCaseId);; ret false).
Proof.
  apply (proj1 (proj2 (proj2 (C1_checks_in_order Samples.corrupted_log)))
           2%nat check_case_id NullCaseId); [reflexivity|reflexivity|].
  intros j earlier Hj Hl.
  destruct j as [|[|j]]; [| |lia]; simplify_eq/=; reflexivity.
Defined.






(** C10: without a posteam column the possession-team check is skipped,
    and the validator succeeds as soon as the four other checks hold;
    with the column, it succeeds only if the distinct values of the
    column are exactly NE, so that a single other team fails. *)
Theorem C10_posteam_guard (event_log : DataFrame) :
  (has_column event_log "posteam" = false →
   check_posteam event_log = None
   ∧ (result (validate_transformation event_log) = Returns true
      ↔ check_columns event_log = None ∧ check_nonempty event_log = None
        ∧ check_case_id event_log = None ∧ check_activity_name event_log = None))
  ∧ (has_column event_log "posteam" = true →
     (result (validate_transformation event_log) = Returns true
      ↔ check_columns event_log = None ∧ check_nonempty event_log = None
        ∧ check_case_id event_log = None ∧ check_activity_name event_log = None
        ∧ unique (column event_log "posteam") = [Str "NE"])).
Proof.
  rewrite result_validate. split; intros Hc.
  - assert (check_posteam event_log = None) as Hp
      by (apply check_posteam_None; congruence).
    split; [done|]. split.
    + intros [= H%bool_decide_eq_true]. apply violations_nil in H. tauto.
    + intros H. f_equal. apply bool_decide_eq_true, violations_nil. tauto.
  - split.
    + intros [= H%bool_decide_eq_true].
      apply violations_nil in H as (?&?&?&?&Hp).
      rewrite check_posteam_None in Hp. split_and!; auto.
    + intros (?&?&?&?&Hu). f_equal. apply bool_decide_eq_true, violations_nil.
      split_and!; [done..|]. by apply check_posteam_None.
Qed.

Lemma C10_posteam_guard_witness :
  result (validate_transformation Samples.no_team_log) = Returns true
  ∧ unique (column Samples.ne_log "posteam") = [Str "NE"]
  ∧ result (validate_transformation Samples.dal_log) ≠ Returns true.
Proof.
  split_and!.
  - apply (proj1 (C10_posteam_guard Samples.no_team_log) eq_refl).
    split_and!; reflexivity.
  - apply (proj2 (C10_posteam_guard Samples.ne_log) eq_refl). reflexivity.
  - intros H. apply (proj2 (C10_posteam_guard Samples.dal_log) eq_refl) in H.
    destruct H as (_ & _ & _ & _ & H). vm_compute in H. discriminate H.
Defined.

End ValidatorProperties.

(* ===================================================================== *)
(** * The stages of the pipeline *)
(* ===================================================================== *)

Section StageFacts.
Variable w : world.

Lemma download_run :
  download_nflverse_data w =
  match read_csv w DATA_URL with
  | Ok df =>
      ([Print (Progress "Downloading NFL 2007 play-by-play data from nflverse...");
        Print (Progress "Downloaded plays from nflverse")], Returns df)
  | Fails e =>
      ([Print (Progress "Downloading NFL 2007 play-by-play data from nflverse...");
        Print DownloadError], Raises (SystemExit 1))
  | Interrupted =>
      ([Print (Progress "Downloading NFL 2007 play-by-play data from nflverse...")],
       Raises KeyboardInterrupt)
  end.
Proof. unfold download_nflverse_data. by destruct (read_csv w DATA_URL). Qed.

Lemma run_statements_silent statements :
  ∀ i, silent (trace (run_statements w i statements))
       ∧ no_exit (result (run_statements w i statements)).
Proof.
  induction statements as [|statement rest IH]; intros i.
  { split; [constructor|done]. }
  destruct (IH (S i)) as [Ht Hr].
  destruct (run_statements w (S i) rest) as [t r] eqn:Hrest.
  cbn [run_statements]. rewrite Hrest. cbn in Ht, Hr.
  destruct (bool_decide (statement ≠ "") && negb (String.prefix "--" statement)).
  - destruct (execute w i statement) as [[]|[]|]; cbn; split; auto.
    all: by repeat constructor.
  - cbn. by split.
Qed.

Lemma silent_app t1 t2 : silent t1 → silent t2 → silent (t1 ++ t2).
Proof. apply Forall_app_2. Qed.

Lemma silent_progress line t : silent t → silent (Print (Progress line) :: t).
Proof. by constructor. Qed.

Lemma transformation_suite_silent raw_data :
  silent (trace (transformation_suite w raw_data))
  ∧ no_exit (result (transformation_suite w raw_data)).
Proof.
  unfold transformation_suite.
  destruct (to_sql w raw_data "raw_data") as [[]|e|]; cbn;
    [|split; [by repeat constructor|done]..].
  destruct (read_statements w SQL_FILE) as [statements|e|]; cbn;
    [|split; [by repeat constructor|done]..].
  destruct (run_statements_silent statements 0%nat) as [Ht Hr].
  destruct (run_statements w 0 statements) as [t [[]|r]]; cbn in *.
  - destruct (read_sql w _) as [event_log|e|]; cbn; split; try done.
    all: do 2 apply silent_progress; apply silent_app; [done|by repeat constructor].
  - split; [by do 2 apply silent_progress|done].
Qed.

(** The transformation stage ends as its [try] suite does, an exception
    turned into [sys.exit(1)], and closes the connection in every case. *)
Lemma execute_sql_transformation_run raw_data :
  execute_sql_transformation w raw_data =
  let suite := transformation_suite w raw_data in
  (Print (Progress "Executing SQL transformation pipeline...")
     :: trace suite
     ++ match result suite with
        | Raises (Exception _) => [Print TransformationFailed]
        | _ => []
        end
     ++ [CloseConnection],
   match result suite with
   | Raises (Exception _) => Raises (SystemExit 1)
   | o => o
   end).
Proof.
  unfold execute_sql_transformation.
  destruct (transformation_suite w raw_data) as [t [event_log|[e| |code]]];
    cbn; by rewrite ?app_nil_r, <-?app_assoc.
Qed.

Lemma save_output_run event_log :
  save_output w event_log =
  match mkdir w OUTPUT_DIR with
  | Ok _ =>
      match to_csv w event_log OUTPUT_FILE with
      | Ok _ =>
          ([Print (Progress "Saving event log..."); Mkdir OUTPUT_DIR;
            WriteCsv OUTPUT_FILE event_log; Print (Saved OUTPUT_FILE)], Returns tt)
      | Fails e =>
          ([Print (Progress "Saving event log..."); Mkdir OUTPUT_DIR;
            WriteCsv OUTPUT_FILE event_log], Raises (Exception e))
      | Interrupted =>
          ([Print (Progress "Saving event log..."); Mkdir OUTPUT_DIR;
            WriteCsv OUTPUT_FILE event_log], Raises KeyboardInterrupt)
      end
  | Fails e =>
      ([Print (Progress "Saving event log..."); Mkdir OUTPUT_DIR],
       Raises (Exception e))
  | Interrupted =>
      ([Print (Progress "Saving event log..."); Mkdir OUTPUT_DIR],
       Raises KeyboardInterrupt)
  end.
Proof.
  unfold save_output.
  destruct (mkdir w OUTPUT_DIR) as [[]|e|]; [|done..].
  by destruct (to_csv w event_log OUTPUT_FILE) as [[]|e|].
Qed.

Lemma print_ranking_run (activity_counts : list (cell * nat)) :
  foldr (λ '(activity, count) rest, print (ActivityCount activity count);; rest)
    (ret tt) activity_counts
  = ((λ '(activity, count), Print (ActivityCount activity count)) <$> activity_counts,
     Returns tt).
Proof.
  induction activity_counts as [|[activity count] l IH]; [done|].
  cbn [foldr]. rewrite IH. done.
Qed.

Lemma display_sample_output_run event_log :
  "activity_name" ∈ columns event_log →
  display_sample_output event_log =
  ([Print (Progress "Sample Event Log Output:");
    Print (Sample (head 10 (select event_log
                    (filter (λ col, col ∈ columns event_log) sample_columns))));
    Print (Progress "Activity Distribution (Top 10):")]
   ++ ((λ '(activity, count), Print (ActivityCount activity count))
         <$> take 10 (value_counts (column event_log "activity_name"))),
   Returns tt).
Proof.
  intros Ha. unfold display_sample_output.
  rewrite (subscript_present _ _ Ha).
  cbn [mbind py_bind bind ret print act fst snd app].
  by rewrite print_ranking_run.
Qed.

End StageFacts.

(* ===================================================================== *)
(** * Runs of [main] *)
(* ===================================================================== *)

Section MainRuns.
Variable w : world.

Ltac step :=
  cbn [mbind py_bind bind ret print act sys_exit raise try_except
       matching_clause fst snd negb is_KeyboardInterrupt is_Exception
       trace result].

Lemma main_acquisition_failed e :
  read_csv w DATA_URL = Fails e →
  main w =
  ([Print (Progress "NFL Process Mining Transformation Pipeline");
    Print (Progress "Downloading NFL 2007 play-by-play data from nflverse...");
    Print DownloadError], Raises (SystemExit 1)).
Proof.
  intros Hread. unfold main, main_suite. rewrite download_run, Hread. by step.
Qed.

Lemma main_acquisition_cancelled :
  read_csv w DATA_URL = Interrupted →
  main w =
  ([Print (Progress "NFL Process Mining Transformation Pipeline");
    Print (Progress "Downloading NFL 2007 play-by-play data from nflverse...");
    Print Cancelled], Raises (SystemExit 0)).
Proof.
  intros Hread. unfold main, main_suite. rewrite download_run, Hread. by step.
Qed.

Ltac same_trace :=
  f_equal; rewrite <-?app_assoc; cbn [app]; rewrite <-?app_assoc; reflexivity.

Ltac enter raw_data Hread :=
  unfold main, main_suite, opening;
  rewrite download_run, Hread; step;
  rewrite execute_sql_transformation_run; cbv zeta.

Lemma main_transformation_failed raw_data e :
  read_csv w DATA_URL = Ok raw_data →
  result (transformation_suite w raw_data) = Raises (Exception e) →
  main w =
  (opening w raw_data ++ [Print TransformationFailed; CloseConnection],
   Raises (SystemExit 1)).
Proof.
  intros Hread Hsuite. enter raw_data Hread. rewrite Hsuite. step. same_trace.
Qed.

Lemma main_transformation_cancelled raw_data :
  read_csv w DATA_URL = Ok raw_data →
  result (transformation_suite w raw_data) = Raises KeyboardInterrupt →
  main w =
  (opening w raw_data ++ [CloseConnection; Print Cancelled],
   Raises (SystemExit 0)).
Proof.
  intros Hread Hsuite. enter raw_data Hread. rewrite Hsuite. step. same_trace.
Qed.

Lemma main_validation_failed raw_data event_log v :
  read_csv w DATA_URL = Ok raw_data →
  result (transformation_suite w raw_data) = Returns event_log →
  first_violation event_log = Some v →
  main w =
  (opening w raw_data
   ++ [CloseConnection; Print (Progress "Validating transformation results...");
       Print (Violation v); Print ValidationFailed],
   Raises (SystemExit 1)).
Proof.
  intros Hread Hsuite Hv. enter raw_data Hread. rewrite Hsuite. step.
  rewrite validate_transformation_verdict. unfold verdict. rewrite Hv. step.
  same_trace.
Qed.

(** A run whose log passes validation, according to what the persist step
    meets. *)
Lemma main_validated raw_data event_log :
  read_csv w DATA_URL = Ok raw_data →
  result (transformation_suite w raw_data) = Returns event_log →
  first_violation event_log = None →
  main w =
  match mkdir w OUTPUT_DIR with
  | Ok _ =>
      match to_csv w event_log OUTPUT_FILE with
      | Ok _ =>
          (opening w raw_data ++ [CloseConnection] ++ passing event_log
           ++ [Print (Progress "Saving event log..."); Mkdir OUTPUT_DIR;
               WriteCsv OUTPUT_FILE event_log; Print (Saved OUTPUT_FILE)]
           ++ closing event_log,
           Returns tt)
      | Fails e =>
          (opening w raw_data ++ [CloseConnection] ++ passing event_log
           ++ [Print (Progress "Saving event log..."); Mkdir OUTPUT_DIR;
               WriteCsv OUTPUT_FILE event_log; Print UnexpectedError],
           Raises (SystemExit 1))
      | Interrupted =>
          (opening w raw_data ++ [CloseConnection] ++ passing event_log
           ++ [Print (Progress "Saving event log..."); Mkdir OUTPUT_DIR;
               WriteCsv OUTPUT_FILE event_log; Print Cancelled],
           Raises (SystemExit 0))
      end
  | Fails e =>
      (opening w raw_data ++ [CloseConnection] ++ passing event_log
       ++ [Print (Progress "Saving event log..."); Mkdir OUTPUT_DIR;
           Print UnexpectedError],
       Raises (SystemExit 1))
  | Interrupted =>
      (opening w raw_data ++ [CloseConnection] ++ passing event_log
       ++ [Print (Progress "Saving event log..."); Mkdir OUTPUT_DIR;
           Print Cancelled],
       Raises (SystemExit 0))
  end.
Proof.
  intros Hread Hsuite Hv. enter raw_data Hread. rewrite Hsuite. step.
  rewrite validate_transformation_verdict. unfold verdict, passing, closing.
  rewrite Hv. step.
  assert ("activity_name" ∈ columns event_log) as Ha.
  { apply first_violation_None, violations_nil in Hv as (Hc & _).
    apply (proj1 (check_columns_None _) Hc). set_solver. }
  rewrite save_output_run, (display_sample_output_run _ Ha).
  destruct (mkdir w OUTPUT_DIR) as [[]|e|]; [|step; same_trace..].
  destruct (to_csv w event_log OUTPUT_FILE) as [[]|e|]; step; same_trace.
Qed.

(** The suite of the transformation never exits by itself, so the cases
    above cover every run. *)
Lemma main_cases :
  (∃ e, read_csv w DATA_URL = Fails e)
  ∨ read_csv w DATA_URL = Interrupted
  ∨ ∃ raw_data, read_csv w DATA_URL = Ok raw_data
      ∧ ((∃ e, result (transformation_suite w raw_data) = Raises (Exception e))
         ∨ result (transformation_suite w raw_data) = Raises KeyboardInterrupt
         ∨ ∃ event_log, result (transformation_suite w raw_data) = Returns event_log).
Proof.
  destruct (read_csv w DATA_URL) as [raw_data|e|]; [|eauto..].
  right; right. exists raw_data. split; [done|].
  destruct (transformation_suite_silent w raw_data) as [_ Hr].
  destruct (result (transformation_suite w raw_data)) as [ev|[e| |code]]; naive_solver.
Qed.

End MainRuns.

(* ===================================================================== *)
(** * The pipeline: stated properties *)
(* ===================================================================== *)

Section PipelineProperties.

Lemma untouched_effects fs t :
  Forall (λ a, touches_files a = false) t → effects fs t = fs.
Proof.
  unfold effects. intros Ht. revert fs.
  induction Ht as [|a t Ha _ IH]; intros fs; [done|].
  cbn [foldl]. rewrite <-(IH fs) at 2. f_equal. by destruct a.
Qed.

Lemma silent_untouched t : silent t → Forall (λ a, touches_files a = false) t.
Proof. intros Ht. eapply Forall_impl; [exact Ht|]. cbn. tauto. Qed.

Lemma opening_silent w raw_data : silent (opening w raw_data).
Proof.
  unfold opening. apply silent_app; [by repeat constructor|].
  apply transformation_suite_silent.
Qed.

Lemma execute_sql_transformation_returns w raw_data event_log :
  result (execute_sql_transformation w raw_data) = Returns event_log
  ↔ result (transformation_suite w raw_data) = Returns event_log.
Proof.
  rewrite execute_sql_transformation_run. cbv zeta. unfold result at 1. cbn [snd].
  destruct (result (transformation_suite w raw_data)) as [?|[e| |code]];
    split; congruence.
Qed.

Lemma result_validate_false event_log :
  result (validate_transformation event_log) = Returns false
  ↔ ∃ v, first_violation event_log = Some v.
Proof.
  rewrite result_validate. unfold first_violation. split.
  - intros [= H%bool_decide_eq_false].
    destruct (violations event_log) as [|v rest]; [done|by exists v].
  - intros [v Hv]. f_equal. apply bool_decide_eq_false.
    by destruct (violations event_log).
Qed.

Lemma result_validate_true event_log :
  result (validate_transformation event_log) = Returns true
  ↔ first_violation event_log = None.
Proof.
  rewrite result_validate, first_violation_None. split.
  - by intros [= H%bool_decide_eq_true].
  - intros H. f_equal. by apply bool_decide_eq_true.
Qed.

(** C7: a run that succeeds exits with code 0; a run stopped by a failure
    of the acquisition, of the transformation, of the validation (or of
    the persist step) exits with code 1; a run the user interrupts exits
    with code 0.  Every run ends in one of these ways. *)
Theorem C7_exit_codes (w : world) :
  (∃ e, ended w e)
  ∧ ∀ e, ended w e →
      exit_status (main w) = exit_code e
      ∧ (exit_status (main w) = 0 ↔ e = Success ∨ e = Cancellation).
Proof.
  split.
  - destruct (main_cases w) as [[e Hr]|[Hr|(raw & Hr & Hs)]].
    + eexists. by eapply acquisition_failed.
    + eexists. by eapply acquisition_cancelled.
    + destruct Hs as [[e Hs]|[Hs|[ev Hs]]].
      * eexists. by eapply transformation_failed.
      * eexists. by eapply transformation_cancelled.
      * destruct (first_violation ev) as [v|] eqn:Hv.
        { eexists. by eapply validation_failed. }
        destruct (mkdir w OUTPUT_DIR) as [[]|e|] eqn:Hm.
        -- destruct (to_csv w ev OUTPUT_FILE) as [[]|e|] eqn:Hc.
           ++ eexists. by eapply succeeded.
           ++ eexists. by eapply to_csv_failed.
           ++ eexists. by eapply to_csv_cancelled.
        -- eexists. by eapply mkdir_failed.
        -- eexists. by eapply mkdir_cancelled.
  - intros e He.
    assert (exit_status (main w) = exit_code e) as Hcode.
    { destruct He as [e Hr|Hr|raw e Hr Hs|raw Hr Hs|raw ev v Hr Hs Hv
                      |raw ev e Hr Hs Hv Hm|raw ev Hr Hs Hv Hm
                      |raw ev e Hr Hs Hv Hm Hc|raw ev Hr Hs Hv Hm Hc
                      |raw ev Hr Hs Hv Hm Hc].
      - by rewrite (main_acquisition_failed w e Hr).
      - by rewrite (main_acquisition_cancelled w Hr).
      - by rewrite (main_transformation_failed w raw e Hr Hs).
      - by rewrite (main_transformation_cancelled w raw Hr Hs).
      - by rewrite (main_validation_failed w raw ev v Hr Hs Hv).
      - by rewrite (main_validated w raw ev Hr Hs Hv), Hm.
      - by rewrite (main_validated w raw ev Hr Hs Hv), Hm.
      - by rewrite (main_validated w raw ev Hr Hs Hv), Hm, Hc.
      - by rewrite (main_validated w raw ev Hr Hs Hv), Hm, Hc.
      - by rewrite (main_validated w raw ev Hr Hs Hv), Hm, Hc. }
    split; [done|]. rewrite Hcode.
    destruct e; cbn; naive_solver.
Qed.

Lemma C7_exit_codes_witness :
  exit_status (main (Samples.calm Samples.ne_log)) = 0
  ∧ exit_status (main Samples.offline) = 1
  ∧ exit_status (main Samples.bad_statement) = 1
  ∧ exit_status (main (Samples.calm Samples.dal_log)) = 1
  ∧ exit_status (main Samples.interrupted_statement) = 0.
Proof.
  split_and!.
  - refine (proj1 (proj2 (C7_exit_codes (Samples.calm Samples.ne_log)) Success _)).
    apply (succeeded _ Samples.raw_frame Samples.ne_log); reflexivity.
  - refine (proj1 (proj2 (C7_exit_codes Samples.offline) AcquisitionFailure _)).
    apply (acquisition_failed _ Other_Exception); reflexivity.
  - refine (proj1 (proj2 (C7_exit_codes Samples.bad_statement) TransformationFailure _)).
    apply (transformation_failed _ Samples.raw_frame sqlite3_Error); reflexivity.
  - refine (proj1 (proj2 (C7_exit_codes (Samples.calm Samples.dal_log))
                     ValidationFailure _)).
    apply (validation_failed _ Samples.raw_frame Samples.dal_log
             (UnexpectedTeams [Str "DAL"])); reflexivity.
  - refine (proj1 (proj2 (C7_exit_codes Samples.interrupted_statement) Cancellation _)).
    apply (transformation_cancelled _ Samples.raw_frame); reflexivity.
Defined.

Lemma opening_untouched w raw_data t :
  Forall (λ a, touches_files a = false) t →
  Forall (λ a, touches_files a = false) (opening w raw_data ++ t).
Proof.
  intros Ht. apply Forall_app_2; [|done].
  apply silent_untouched, opening_silent.
Qed.

(** A run touches the file system only if its log passed validation. *)
Lemma main_validated_or_untouched w :
  (∃ raw_data event_log,
     read_csv w DATA_URL = Ok raw_data
     ∧ result (transformation_suite w raw_data) = Returns event_log
     ∧ first_violation event_log = None)
  ∨ Forall (λ a, touches_files a = false) (trace (main w)).
Proof.
  destruct (main_cases w) as [[e Hr]|[Hr|(raw & Hr & Hs)]].
  - right. rewrite (main_acquisition_failed w e Hr). by repeat constructor.
  - right. rewrite (main_acquisition_cancelled w Hr). by repeat constructor.
  - destruct Hs as [[e Hs]|[Hs|[ev Hs]]].
    + right. rewrite (main_transformation_failed w raw e Hr Hs).
      apply opening_untouched. by repeat constructor.
    + right. rewrite (main_transformation_cancelled w raw Hr Hs).
      apply opening_untouched. by repeat constructor.
    + destruct (first_violation ev) as [v|] eqn:Hv.
      * right. rewrite (main_validation_failed w raw ev v Hr Hs Hv).
        apply opening_untouched. by repeat constructor.
      * left. by exists raw, ev.
Qed.

(** C2: when the validator returns failure the run performs no action on
    the file system, leaves it as it was and exits with code 1; and any
    action of a run on the file system (creating the output directory,
    writing the output file) comes after the validator has returned
    success on the very log that is written. *)
Theorem C2_persist_only_after_validation (w : world) :
  (∀ raw_data event_log,
     read_csv w DATA_URL = Ok raw_data →
     result (execute_sql_transformation w raw_data) = Returns event_log →
     result (validate_transformation event_log) = Returns false →
     Forall (λ a, touches_files a = false) (trace (main w))
     ∧ writes (trace (main w)) = []
     ∧ (∀ fs, effects fs (trace (main w)) = fs)
     ∧ exit_status (main w) = 1)
  ∧ (∀ a, a ∈ trace (main w) → touches_files a = true →
     ∃ raw_data event_log pre post,
       read_csv w DATA_URL = Ok raw_data
       ∧ result (execute_sql_transformation w raw_data) = Returns event_log
       ∧ result (validate_transformation event_log) = Returns true
       ∧ trace (main w) = pre ++ trace (validate_transformation event_log) ++ post
       ∧ Forall (λ a, touches_files a = false) pre
       ∧ a ∈ post
       ∧ (a = Mkdir OUTPUT_DIR ∨ a = WriteCsv OUTPUT_FILE event_log)).
Proof.
  split.
  - intros raw ev Hr Hs [v Hv]%result_validate_false.
    apply execute_sql_transformation_returns in Hs.
    rewrite (main_validation_failed w raw ev v Hr Hs Hv).
    assert (Forall (λ a, touches_files a = false)
              (opening w raw
               ++ [CloseConnection; Print (Progress "Validating transformation results...");
                   Print (Violation v); Print ValidationFailed])) as Hu
      by (apply opening_untouched; by repeat constructor).
    cbn [trace fst]. split_and!; [done| |by intros; apply untouched_effects|done].
    unfold writes. induction Hu as [|a t Ha _ IH]; [done|].
    cbn. rewrite IH. by destruct a.
  - intros a Ha Htouch.
    destruct (main_validated_or_untouched w) as [Hval|Hu]; cycle 1.
    { rewrite Forall_forall in Hu. specialize (Hu a Ha). congruence. }
    destruct Hval as (raw & ev & Hr & Hs & Hv).
    exists raw, ev, (opening w raw ++ [CloseConnection]).
    assert (trace (validate_transformation ev) = passing ev) as ->.
    { rewrite validate_transformation_verdict. unfold verdict. by rewrite Hv. }
    rewrite (main_validated w raw ev Hr Hs Hv) in Ha |- *.
    assert (Forall (λ a, touches_files a = false)
              (opening w raw ++ [CloseConnection])) as Hpre
      by (apply opening_untouched; by repeat constructor).
    assert (Forall (λ a, touches_files a = false) (passing ev)) as Hpass
      by (by repeat constructor).
    assert (∀ post,
              a ∈ opening w raw ++ [CloseConnection] ++ passing ev ++ post →
              a ∈ post) as Hin.
    { intros post. rewrite !app_assoc, <-(app_assoc _ _ (passing ev)), elem_of_app.
      intros [Hin|Hin]; [|done]. exfalso.
      assert (Forall (λ a, touches_files a = false)
                (opening w raw ++ [CloseConnection] ++ passing ev)) as Hu.
      { rewrite app_assoc. by apply Forall_app_2. }
      rewrite Forall_forall in Hu. specialize (Hu a Hin). congruence. }
    destruct (mkdir w OUTPUT_DIR) as [[]|e|];
      [destruct (to_csv w ev OUTPUT_FILE) as [[]|e|]|..];
      cbn [trace fst] in Ha |- *; apply Hin in Ha;
      (eexists; split_and!;
       [done|by apply execute_sql_transformation_returns
        |by apply result_validate_true
        |by rewrite <-app_assoc|done|exact Ha|]);
      repeat (apply elem_of_cons in Ha as [->|Ha]; [by auto|]);
      try (by apply not_elem_of_nil in Ha).
    unfold closing in Ha.
    rewrite !elem_of_app, list_elem_of_fmap in Ha.
    destruct Ha as [([c n] & -> & _)|Ha]; [done|].
    apply list_elem_of_singleton in Ha as ->. done.
Qed.

Lemma C2_persist_only_after_validation_witness :
  (Forall (λ a, touches_files a = false) (trace (main (Samples.calm Samples.dal_log)))
   ∧ writes (trace (main (Samples.calm Samples.dal_log))) = []
   ∧ (∀ fs, effects fs (trace (main (Samples.calm Samples.dal_log))) = fs)
   ∧ exit_status (main (Samples.calm Samples.dal_log)) = 1)
  ∧ ∃ raw_data event_log pre post,
      read_csv (Samples.calm Samples.ne_log) DATA_URL = Ok raw_data
      ∧ result (execute_sql_transformation (Samples.calm Samples.ne_log) raw_data)
        = Returns event_log
      ∧ result (validate_transformation event_log) = Returns true
      ∧ trace (main (Samples.calm Samples.ne_log))
        = pre ++ trace (validate_transformation event_log) ++ post
      ∧ Forall (λ a, touches_files a = false) pre
      ∧ WriteCsv OUTPUT_FILE Samples.ne_log ∈ post
      ∧ (WriteCsv OUTPUT_FILE Samples.ne_log = Mkdir OUTPUT_DIR
         ∨ WriteCsv OUTPUT_FILE Samples.ne_log = WriteCsv OUTPUT_FILE event_log).
Proof.
  split.
  - apply (proj1 (C2_persist_only_after_validation (Samples.calm Samples.dal_log))
             Samples.raw_frame Samples.dal_log); reflexivity.
  - apply (proj2 (C2_persist_only_after_validation (Samples.calm Samples.ne_log))
             (WriteCsv OUTPUT_FILE Samples.ne_log)); [|reflexivity].
    apply (list_elem_of_lookup_2 _ 12%nat). reflexivity.
Defined.

(** C9, as the specification words it, fails on a run that succeeds: the
    three counts are displayed before the output file is written, and
    not after it. *)
Lemma C9_counts_displayed_before_write :
  ∃ pre post,
    trace (main (Samples.calm Samples.ne_log))
    = pre ++ WriteCsv OUTPUT_FILE Samples.ne_log :: post
    ∧ Print (ValidationPassed 3 2 2) ∈ pre
    ∧ Forall (λ a, displays_counts a = false) post.
Proof.
  exists (take 12 (trace (main (Samples.calm Samples.ne_log)))),
         (drop 13 (trace (main (Samples.calm Samples.ne_log)))).
  split_and!.
  - reflexivity.
  - apply (list_elem_of_lookup_2 _ 9%nat). reflexivity.
  - vm_compute. by repeat constructor.
Qed.

Lemma closing_reports event_log :
  Forall (λ a, displays_counts a = false ∧ touches_files a = false)
    (closing event_log)
  ∧ ranking (closing event_log)
    = take 10 (value_counts (column event_log "activity_name")).
Proof.
  unfold closing. split.
  - repeat (apply Forall_cons; split; [done|]).
    apply Forall_app_2; [|by repeat constructor].
    apply Forall_fmap, Forall_forall. by intros [c n] _.
  - unfold ranking. cbn [app omap list_omap].
    rewrite omap_app. cbn [omap list_omap]. rewrite app_nil_r.
    generalize (take 10 (value_counts (column event_log "activity_name"))).
    intros l. induction l as [|[c n] l IH]; [done|]. cbn. by rewrite IH.
Qed.

(** C9, amended: in a run that succeeds, the validator displays the event
    count, the distinct case count and the distinct activity count before
    anything is written; the persister then creates the output directory
    if it is absent and writes the validated log to the fixed output
    file, replacing what the file held; only after the write come the
    sample (the first ten rows of the columns on show) and the ranking of
    the ten most frequent activity labels, each with its number of
    occurrences, by decreasing count. *)
Theorem C9_report_around_write (w : world) :
  result (main w) = Returns tt →
  ∃ raw_data event_log pre,
    read_csv w DATA_URL = Ok raw_data
    ∧ result (execute_sql_transformation w raw_data) = Returns event_log
    ∧ result (validate_transformation event_log) = Returns true
    ∧ trace (main w)
      = pre ++ passing event_log
        ++ [Print (Progress "Saving event log..."); Mkdir OUTPUT_DIR;
            WriteCsv OUTPUT_FILE event_log; Print (Saved OUTPUT_FILE)]
        ++ closing event_log
    ∧ silent pre
    ∧ Forall (λ a, displays_counts a = false ∧ touches_files a = false)
        (closing event_log)
    ∧ (∀ fs,
         dirs (effects fs (trace (main w))) = {[OUTPUT_DIR]} ∪ dirs fs
         ∧ files (effects fs (trace (main w)))
           = <[OUTPUT_FILE := event_log]> (files fs))
    ∧ Print (Sample (head 10 (select event_log
               (filter (λ col, col ∈ columns event_log) sample_columns))))
      ∈ closing event_log
    ∧ ranking (closing event_log)
      = take 10 (value_counts (column event_log "activity_name"))
    ∧ Sorted (λ x y, (y.2 ≤ x.2)%nat) (value_counts (column event_log "activity_name"))
    ∧ (∀ c n, (c, n) ∈ value_counts (column event_log "activity_name")
              ↔ c ∈ column event_log "activity_name" ∧ isna c = false
                ∧ n = occurrences c (column event_log "activity_name")).
Proof.
  intros Hres.
  destruct (main_cases w) as [[e Hr]|[Hr|(raw & Hr & Hs)]].
  { by rewrite (main_acquisition_failed w e Hr) in Hres. }
  { by rewrite (main_acquisition_cancelled w Hr) in Hres. }
  destruct Hs as [[e Hs]|[Hs|[ev Hs]]].
  { by rewrite (main_transformation_failed w raw e Hr Hs) in Hres. }
  { by rewrite (main_transformation_cancelled w raw Hr Hs) in Hres. }
  destruct (first_violation ev) as [v|] eqn:Hv.
  { by rewrite (main_validation_failed w raw ev v Hr Hs Hv) in Hres. }
  rewrite (main_validated w raw ev Hr Hs Hv) in Hres |- *.
  destruct (mkdir w OUTPUT_DIR) as [[]|e|]; [|done..].
  destruct (to_csv w ev OUTPUT_FILE) as [[]|e|]; [|done..].
  destruct (closing_reports ev) as [Hclosing Hranking].
  assert (silent (opening w raw ++ [CloseConnection])) as Hpre.
  { apply silent_app; [apply opening_silent|by repeat constructor]. }
  exists raw, ev, (opening w raw ++ [CloseConnection]).
  split_and!; try done.
  - by apply execute_sql_transformation_returns.
  - by apply result_validate_true.
  - cbn [trace fst]. by rewrite <-app_assoc.
  - intros fs. cbn [trace fst]. unfold effects.
    rewrite !foldl_app.
    change (foldl effect fs (opening w raw)) with (effects fs (opening w raw)).
    rewrite (untouched_effects fs (opening w raw))
      by apply silent_untouched, opening_silent.
    cbn [foldl passing effect].
    change (foldl effect ?x (closing ev)) with (effects x (closing ev)).
    rewrite untouched_effects; [done|].
    eapply Forall_impl; [exact Hclosing|]. cbn. tauto.
  - unfold closing. set_solver.
  - apply value_counts_Sorted.
  - intros c n. apply elem_of_value_counts.
Qed.

Lemma C9_report_around_write_witness :
  ∃ raw_data event_log pre,
    read_csv (Samples.calm Samples.ne_log) DATA_URL = Ok raw_data
    ∧ result (execute_sql_transformation (Samples.calm Samples.ne_log) raw_data)
      = Returns event_log
    ∧ trace (main (Samples.calm Samples.ne_log))
      = pre ++ passing event_log
        ++ [Print (Progress "Saving event log..."); Mkdir OUTPUT_DIR;
            WriteCsv OUTPUT_FILE event_log; Print (Saved OUTPUT_FILE)]
        ++ closing event_log
    ∧ files (effects Samples.stale (trace (main (Samples.calm Samples.ne_log))))
      = <[OUTPUT_FILE := event_log]> (files Samples.stale).
Proof.
  destruct (C9_report_around_write (Samples.calm Samples.ne_log) eq_refl)
    as (raw & ev & pre & Hr & Hs & _ & Ht & _ & _ & Hfs & _).
  exists raw, ev, pre. split_and!; [exact Hr|exact Hs|exact Ht|].
  exact (proj2 (Hfs Samples.stale)).
Defined.

End PipelineProperties.

(* ===================================================================== *)
(** * The transformation ruleset: totality, order, determinism *)
(* ===================================================================== *)

Section RulesetFacts.
Context {CaseId : Type} (case_le : relation CaseId).
Context `{!RelDecision case_le, !EqDecision CaseId}.
Variable configured_team : string.
Variable derive_case_id : string → Z → CaseId.
Variable rules : list ((RawPlay → bool) * string).
Variable fallback : string.
Variable derive_time : Z → Z.

Local Abbreviation scoping := (scoping configured_team).
Local Abbreviation derive_activity := (derive_activity rules fallback).
Local Abbreviation to_event := (to_event derive_case_id rules fallback derive_time).
Local Abbreviation derived := (derived configured_team derive_case_id rules fallback derive_time).
Local Abbreviation transform :=
  (transform case_le configured_team derive_case_id rules fallback derive_time).
Local Abbreviation conforms :=
  (conforms case_le configured_team derive_case_id rules fallback derive_time).
Local Abbreviation key_le := (key_le case_le).
Local Abbreviation row_le := (row_le case_le).

(** ** The CASE expression *)

Lemma sql_case_first {R L} (pre post : list ((R → bool) * L)) condition label
    otherwise r :
  Forall (λ rule, rule.1 r = false) pre → condition r = true →
  sql_case (pre ++ (condition, label) :: post) otherwise r = Some label.
Proof.
  induction 1 as [|[c l] pre Hc _ IH]; intros Hcond; cbn.
  - by rewrite Hcond.
  - cbn in Hc. rewrite Hc. by apply IH.
Qed.

Lemma sql_case_otherwise {R L} (branches : list ((R → bool) * L)) otherwise r :
  Forall (λ rule, rule.1 r = false) branches →
  sql_case branches otherwise r = otherwise.
Proof.
  induction 1 as [|[c l] pre Hc _ IH]; cbn; [done|]. cbn in Hc. by rewrite Hc.
Qed.

Lemma sql_case_label {R L} (branches : list ((R → bool) * L)) otherwise r :
  sql_case branches otherwise r = otherwise
  ∨ ∃ label, sql_case branches otherwise r = Some label ∧ label ∈ branches.*2.
Proof.
  induction branches as [|[c l] branches IH]; cbn; [by left|].
  destruct (c r).
  - right. exists l. split; [done|]. by left.
  - destruct IH as [IH|(label & IH & Hin)]; [by left|].
    right. exists label. split; [done|]. by right.
Qed.

(** ** The stages as views *)

Lemma snd_filter_imap (P : RawPlay → Prop) `{!∀ r, Decision (P r)}
    (g : nat → nat) (feed : list RawPlay) :
  (filter (λ ir : nat * RawPlay, P ir.2) (imap (λ i r, (g i, r)) feed)).*2
  = filter P feed.
Proof.
  revert g. induction feed as [|r feed IH]; intros g; [done|].
  cbn [imap]. rewrite !filter_cons. cbn [snd].
  specialize (IH (g ∘ S)). unfold compose in *.
  destruct (decide (P r)); cbn; by rewrite IH.
Qed.

Lemma derived_events feed :
  (derived feed).*2 = to_event <$> filter (λ r, scoping r = true) feed.
Proof.
  unfold derived, indexed. rewrite <-list_fmap_compose.
  rewrite <-(snd_filter_imap (λ r, scoping r = true) id feed).
  rewrite <-list_fmap_compose. apply list_fmap_ext. by intros i [j r] _.
Qed.

Lemma elem_of_derived feed i e :
  (i, e) ∈ derived feed →
  ∃ r, feed !! i = Some r ∧ scoping r = true ∧ e = to_event r.
Proof.
  unfold derived, indexed. rewrite list_elem_of_fmap.
  intros ([j r] & [= -> ->] & Hin).
  apply list_elem_of_filter in Hin as [Hs Hin]. cbn in Hs.
  apply elem_of_lookup_imap in Hin as (k & r' & ? & Hk). simplify_eq.
  by exists r'.
Qed.

Lemma transform_Permutation feed :
  transform feed ≡ₚ to_event <$> filter (λ r, scoping r = true) feed.
Proof.
  unfold Ruleset.transform. rewrite merge_sort_Permutation.
  by rewrite derived_events.
Qed.

(** ** The order of step 6 *)

Context `{!PartialOrder case_le, !Total case_le}.

Lemma key_le_refl e : key_le e e.
Proof. split; [done|]. intros _. lia. Qed.

Lemma key_le_trans e1 e2 e3 : key_le e1 e2 → key_le e2 e3 → key_le e1 e3.
Proof.
  intros [Hc12 Ht12] [Hc23 Ht23]. split; [by etrans|].
  intros Hc31.
  assert (case_le (case_id e2) (case_id e1)) as Hc21 by (by etrans).
  assert (case_le (case_id e3) (case_id e2)) as Hc32 by (by etrans).
  specialize (Ht12 Hc21). specialize (Ht23 Hc32). lia.
Qed.

Lemma key_le_total e1 e2 : key_le e1 e2 ∨ key_le e2 e1.
Proof.
  unfold Ruleset.key_le.
  destruct (decide (case_le (case_id e1) (case_id e2))) as [H12|H12],
           (decide (case_le (case_id e2) (case_id e1))) as [H21|H21].
  - destruct (decide (transformed_time e1 ≤ transformed_time e2));
      [left|right]; split; auto; intros _; lia.
  - left. split; [done|]. by intros ?.
  - right. split; [done|]. by intros ?.
  - by destruct (total case_le (case_id e1) (case_id e2)).
Qed.

#[local] Instance row_le_trans : Transitive row_le.
Proof.
  intros x y z [Hxy Hi] [Hyz Hj]. split; [by eapply key_le_trans|].
  intros Hzx.
  assert (key_le y.2 x.2) as Hyx by (by eapply key_le_trans).
  assert (key_le z.2 y.2) as Hzy by (by eapply key_le_trans).
  specialize (Hi Hyx). specialize (Hj Hzy). lia.
Qed.

#[local] Instance row_le_total : Total row_le.
Proof.
  intros x y. unfold Ruleset.row_le.
  destruct (decide (key_le x.2 y.2)) as [Hxy|Hxy],
           (decide (key_le y.2 x.2)) as [Hyx|Hyx].
  - destruct (decide (x.1 ≤ y.1)%nat); [left|right]; split; auto; intros _; lia.
  - left. split; [done|]. by intros ?.
  - right. split; [done|]. by intros ?.
  - by destruct (key_le_total x.2 y.2).
Qed.

Lemma row_le_key_le x y : row_le x y → key_le x.2 y.2.
Proof. by intros [? _]. Qed.

(** Two rows of the derived relation that the order cannot tell apart are
    the same row. *)
Lemma row_le_antisym feed x y :
  x ∈ derived feed → y ∈ derived feed → row_le x y → row_le y x → x = y.
Proof.
  destruct x as [i e], y as [j e']. intros Hx Hy [Hxy Hi] [Hyx Hj]. cbn in *.
  assert (i = j) as -> by (specialize (Hi Hyx); specialize (Hj Hxy); lia).
  apply elem_of_derived in Hx as (r & Hr & _ & ->).
  apply elem_of_derived in Hy as (r' & Hr' & _ & ->).
  by simplify_eq.
Qed.

Lemma transform_conforms feed : conforms feed (transform feed).
Proof.
  exists (merge_sort row_le (derived feed)). split_and!; [done| |].
  - apply merge_sort_Permutation.
  - apply Sorted_merge_sort. apply _.
Qed.

Lemma conforms_unique feed out1 out2 :
  conforms feed out1 → conforms feed out2 → out1 = out2.
Proof.
  intros (l1 & -> & Hp1 & Hs1) (l2 & -> & Hp2 & Hs2). f_equal.
  apply (Sorted_unique_strong row_le); [|done..|by rewrite Hp1, Hp2].
  intros x y Hx Hy. rewrite Hp1 in Hx. rewrite Hp2 in Hy.
  by apply (row_le_antisym feed).
Qed.

Lemma transform_Sorted feed : Sorted key_le (transform feed).
Proof.
  unfold Ruleset.transform.
  apply (Sorted_fmap snd row_le key_le); [apply row_le_key_le|].
  apply Sorted_merge_sort. apply _.
Qed.

Lemma within_case_Sorted (c : CaseId) (l : list (EventRecord CaseId)) :
  Sorted key_le l →
  Sorted Z.le (transformed_time <$> filter (λ e, case_id e = c) l).
Proof.
  intros Hl. apply StronglySorted_Sorted.
  assert (StronglySorted key_le l) as Hs.
  { apply Sorted_StronglySorted; [|done]. intros ???. apply key_le_trans. }
  clear Hl. induction Hs as [|e l Hs IH He]; [constructor|].
  rewrite filter_cons. destruct (decide (case_id e = c)) as [Hc|Hc]; [|done].
  cbn. constructor; [done|].
  apply Forall_fmap, Forall_forall. intros e' [Hc' Hin]%list_elem_of_filter.
  rewrite Forall_forall in He. destruct (He e' Hin) as [_ Ht].
  cbn. apply Ht. by rewrite Hc, Hc'.
Qed.

(** ** Stated properties *)

(** C3: every play of the feed that satisfies the scoping filter gives
    exactly one event record, and the output holds nothing else (it is a
    rearrangement of the events of the in-scope plays, with their
    multiplicity); every play receives exactly one activity label, never
    NULL: the label of the first rule that matches it, and the fallback
    label when no rule does. *)
Theorem C3_one_event_per_scoped_play (feed : list RawPlay) :
  transform feed ≡ₚ to_event <$> filter (λ r, scoping r = true) feed
  ∧ length (transform feed) = length (filter (λ r, scoping r = true) feed)
  ∧ (∀ e, e ∈ transform feed
          ↔ ∃ r, r ∈ feed ∧ scoping r = true ∧ e = to_event r)
  ∧ (∀ e, e ∈ transform feed → is_Some (activity_name e))
  ∧ (∀ r, ∃ label, derive_activity r = Some label
                   ∧ (label = fallback ∨ label ∈ rules.*2))
  ∧ (∀ r, Forall (λ rule, rule.1 r = false) rules →
          derive_activity r = Some fallback)
  ∧ (∀ r pre condition label post,
       rules = pre ++ (condition, label) :: post →
       Forall (λ rule, rule.1 r = false) pre → condition r = true →
       derive_activity r = Some label).
Proof.
  pose proof (transform_Permutation feed) as Hperm.
  assert (∀ r, ∃ label, derive_activity r = Some label
                        ∧ (label = fallback ∨ label ∈ rules.*2)) as Hlabel.
  { intros r. unfold Ruleset.derive_activity.
    destruct (sql_case_label rules (Some fallback) r) as [->|(label & -> & Hin)];
      eauto. }
  assert (∀ e, e ∈ transform feed
               ↔ ∃ r, r ∈ feed ∧ scoping r = true ∧ e = to_event r) as Hmem.
  { intros e. rewrite Hperm, list_elem_of_fmap.
    setoid_rewrite list_elem_of_filter. naive_solver. }
  split_and!; [done| |done| |done| |].
  - by rewrite Hperm, length_fmap.
  - intros e (r & _ & _ & ->)%Hmem. cbn.
    destruct (Hlabel r) as (label & -> & _). by eexists.
  - intros r Hnone. by apply sql_case_otherwise.
  - intros r pre condition label post -> Hpre Hcond. by apply sql_case_first.
Qed.

(** C4: the output is sorted by (case_id, transformed_time) ascending, and
    so, for every case, the times of its events read in output order never
    decrease. *)
Theorem C4_sorted_by_case_then_time (feed : list RawPlay) :
  Sorted key_le (transform feed)
  ∧ ∀ c, Sorted Z.le
           (transformed_time <$> filter (λ e, case_id e = c) (transform feed)).
Proof.
  split; [apply transform_Sorted|].
  intros c. apply within_case_Sorted, transform_Sorted.
Qed.

(** C5: the output of a run is determined by the feed: the transformation
    yields the derived rows in the order of step 6 with ties in original
    row order, and any two outputs that do so for the same feed, whatever
    sort produced them, are equal. *)
Theorem C5_output_determined (feed1 feed2 : list RawPlay)
    (out1 out2 : list (EventRecord CaseId)) :
  conforms feed1 (transform feed1)
  ∧ (feed1 = feed2 → conforms feed1 out1 → conforms feed2 out2 → out1 = out2).
Proof.
  split; [apply transform_conforms|].
  intros <-. apply conforms_unique.
Qed.

End RulesetFacts.


Section RulesetWitnesses.

Lemma C3_one_event_per_scoped_play_witness :
  derive_activity Samples.rules "Other" (Samples.play "NE" 1 3 None) = Some "Other"
  ∧ derive_activity Samples.rules "Other" (Samples.play "NE" 2 5 (Some "run"))
    = Some "Run"
  ∧ length (Samples.sample_transform Samples.feed) = 4%nat.
Proof.
  pose proof (C3_one_event_per_scoped_play Z.le "NE" (λ _ d, d) Samples.rules
                "Other" id Samples.feed) as (_ & Hlen & _ & _ & _ & Hfall & Hfirst).
  split_and!.
  - apply Hfall. by repeat constructor.
  - apply (Hfirst _ [(touchdown, "Touchdown")]
             (λ r, bool_decide (play_type r = Some "run")) "Run" []);
      [reflexivity| |reflexivity].
    by repeat constructor.
  - unfold Samples.sample_transform. rewrite Hlen. reflexivity.
Defined.

Lemma C4_sorted_by_case_then_time_witness :
  Sorted (key_le Z.le) (Samples.sample_transform Samples.feed)
  ∧ Sorted Z.le
      (transformed_time
         <$> filter (λ e, case_id e = 1) (Samples.sample_transform Samples.feed)).
Proof.
  destruct (C4_sorted_by_case_then_time Z.le "NE" (λ _ d, d) Samples.rules
              "Other" id Samples.feed) as [Hsorted Hcase].
  split; [exact Hsorted|exact (Hcase 1)].
Defined.

Lemma C5_output_determined_witness :
  Samples.sample_transform Samples.feed = Samples.expected_rows.*2.
Proof.
  refine (proj2 (C5_output_determined Z.le "NE" (λ _ d, d) Samples.rules "Other" id
                   Samples.feed Samples.feed
                   (Samples.sample_transform Samples.feed)
                   Samples.expected_rows.*2) eq_refl _ _).
  - apply (proj1 (C5_output_determined Z.le "NE" (λ _ d, d) Samples.rules "Other" id
                    Samples.feed Samples.feed [] [])).
  - exists Samples.expected_rows. split_and!.
    + reflexivity.
    + apply (bool_decide_unpack _). vm_compute. exact I.
    + apply (bool_decide_unpack _). vm_compute. exact I.
Defined.

End RulesetWitnesses.

(* ===================================================================== *)
(** * The loop over the statements and the transformation stage *)
(* ===================================================================== *)

Section TransformationFacts.
Variable w : world.

Lemma run_statements_cons i statement rest :
  run_statements w i (statement :: rest) =
  if executable statement then
    match execute w i statement with
    | Ok _ => run_statements w (S i) rest
    | Fails sqlite3_Error =>
        ([Print (SqlStatementError (i + 1))], Raises (Exception sqlite3_Error))
    | Fails Other_Exception => ([], Raises (Exception Other_Exception))
    | Interrupted => ([], Raises KeyboardInterrupt)
    end
  else run_statements w (S i) rest.
Proof.
  cbn [run_statements]. change (_ && _) with (executable statement).
  destruct (run_statements w (S i) rest) as [t r] eqn:Hrest.
  destruct (executable statement); [|done].
  by destruct (execute w i statement) as [[]|[]|].
Qed.

Lemma run_statements_app_ok i pre rest :
  (∀ k s, pre !! k = Some s → executable s = true →
          execute w (i + k) s = Ok tt) →
  run_statements w i (pre ++ rest) = run_statements w (i + length pre) rest.
Proof.
  revert i. induction pre as [|s pre IH]; intros i Hpre.
  { cbn. by rewrite Nat.add_0_r. }
  cbn [app length]. rewrite run_statements_cons.
  assert (run_statements w (S i) (pre ++ rest)
          = run_statements w (i + S (length pre)) rest) as Hrest.
  { rewrite IH; [f_equal; lia|]. intros k s' Hk Hx.
    replace (S i + k)%nat with (i + S k)%nat by lia. by apply Hpre. }
  destruct (executable s) eqn:Hx; [|done].
  specialize (Hpre 0%nat s eq_refl Hx). rewrite Nat.add_0_r in Hpre.
  by rewrite Hpre.
Qed.

(** X3: the loop stops at the first statement that does not go through:
    the run ends there, whatever statements come after; an error of the
    engine is reported with the position of the statement in the list,
    counted from 1 and skipped statements included, any other exception and
    an interrupt go up unreported. *)
Theorem run_statements_fail_fast (i : nat) (pre : list string)
    (statement : string) (post : list string) :
  (∀ k s, pre !! k = Some s → executable s = true →
          execute w (i + k) s = Ok tt) →
  executable statement = true →
  execute w (i + length pre) statement ≠ Ok tt →
  run_statements w i (pre ++ statement :: post) =
  match execute w (i + length pre) statement with
  | Fails sqlite3_Error =>
      ([Print (SqlStatementError (i + length pre + 1))],
       Raises (Exception sqlite3_Error))
  | Fails Other_Exception => ([], Raises (Exception Other_Exception))
  | _ => ([], Raises KeyboardInterrupt)
  end.
Proof.
  intros Hpre Hx Hfail. rewrite (run_statements_app_ok _ _ _ Hpre).
  rewrite run_statements_cons, Hx.
  by destruct (execute w (i + length pre) statement) as [[]|[]|].
Qed.

Lemma run_statements_Returns (i : nat) (statements : list string) :
  (result (run_statements w i statements) = Returns tt
   ↔ ∀ k s, statements !! k = Some s → executable s = true →
            execute w (i + k) s = Ok tt)
  ∧ (result (run_statements w i statements) = Returns tt →
     trace (run_statements w i statements) = []).
Proof.
  revert i. induction statements as [|statement rest IH]; intros i.
  { split; [|done]. split; [|done]. by intros _ k s. }
  rewrite run_statements_cons. destruct (IH (S i)) as [IHr IHt].
  assert ((∀ k s, rest !! k = Some s → executable s = true →
                  execute w (S i + k) s = Ok tt)
          ↔ (∀ k s, (statement :: rest) !! S k = Some s → executable s = true →
                    execute w (i + S k) s = Ok tt)) as Hshift.
  { split; intros H k s Hk Hx.
    - replace (i + S k)%nat with (S i + k)%nat by lia. by apply H.
    - replace (S i + k)%nat with (i + S k)%nat by lia. by apply H. }
  destruct (executable statement) eqn:Hx.
  - destruct (execute w i statement) as [[]|[]|] eqn:He.
    + split; [|done]. rewrite IHr, Hshift. split.
      * intros H [|k] s Hk Hxs; [|by apply H].
        rewrite Nat.add_0_r. by simplify_eq/=.
      * intros H k s. apply H.
    + split; [|done]. split; [done|]. intros H.
      specialize (H 0%nat statement eq_refl Hx).
      rewrite Nat.add_0_r in H. congruence.
    + split; [|done]. split; [done|]. intros H.
      specialize (H 0%nat statement eq_refl Hx).
      rewrite Nat.add_0_r in H. congruence.
    + split; [|done]. split; [done|]. intros H.
      specialize (H 0%nat statement eq_refl Hx).
      rewrite Nat.add_0_r in H. congruence.
  - split; [|done]. rewrite IHr, Hshift. split.
    + intros H [|k] s Hk Hxs; [|by apply H]. simplify_eq/=. congruence.
    + intros H k s. apply H.
Qed.

(** X4: the transformation stage returns a log exactly when the load of
    the raw data, the reading of the ruleset, every statement that is run
    and the final query all go through, and the log it returns is what the
    final query gave, unchanged. *)
Theorem transformation_returns_final_select (raw_data event_log : DataFrame) :
  result (execute_sql_transformation w raw_data) = Returns event_log
  ↔ to_sql w raw_data "raw_data" = Ok tt
    ∧ ∃ statements,
        read_statements w SQL_FILE = Ok statements
        ∧ (∀ k s, statements !! k = Some s → executable s = true →
                  execute w k s = Ok tt)
        ∧ read_sql w "SELECT * FROM final_cleaned_dataset" = Ok event_log.
Proof.
  rewrite execute_sql_transformation_returns. unfold transformation_suite.
  destruct (to_sql w raw_data "raw_data") as [[]|e|]; cbn;
    [|split; [done|by intros [? _]]..].
  destruct (read_statements w SQL_FILE) as [statements|e|] eqn:Hread; cbn;
    [|split; [done|by intros (_ & ? & ? & _)]..].
  destruct (run_statements_Returns 0 statements) as [Hiff _].
  unfold result in Hiff.
  destruct (run_statements w 0 statements) as [t [[]|r]]; cbn in *.
  - destruct (read_sql w _) as [df|e|]; cbn.
    + split.
      * intros [= ->]. split; [done|]. exists statements.
        split_and!; [done| |done]. by apply Hiff.
      * intros (_ & ? & [= <-] & _ & [= ->]). done.
    + split; [done|]. by intros (_ & ? & _ & _ & ?).
    + split; [done|]. by intros (_ & ? & _ & _ & ?).
  - split; [done|]. intros (_ & ? & [= <-] & Hall & _).
    by apply Hiff in Hall.
Qed.

End TransformationFacts.

Section TransformationWitnesses.

Lemma run_statements_fail_fast_witness :
  run_statements Samples.bad_statement 0
    (["CREATE VIEW a AS SELECT 1"; "-- note"] ++ "CREATE VIEW b AS SELECT 2" :: ["DROP VIEW a"])
  = ([Print (SqlStatementError 3)], Raises (Exception sqlite3_Error)).
Proof.
  apply (run_statements_fail_fast Samples.bad_statement 0
           ["CREATE VIEW a AS SELECT 1"; "-- note"] "CREATE VIEW b AS SELECT 2"
           ["DROP VIEW a"]).
  - intros [|[|k]] s Hk Hx; simplify_eq/=; reflexivity.
  - reflexivity.
  - discriminate.
Defined.

Lemma transformation_returns_final_select_witness :
  result (execute_sql_transformation (Samples.calm Samples.ne_log) Samples.raw_frame)
  = Returns Samples.ne_log.
Proof.
  apply (proj2 (transformation_returns_final_select (Samples.calm Samples.ne_log)
                  Samples.raw_frame Samples.ne_log)).
  split; [reflexivity|]. exists MoreSamples.three_statements.
  split_and!; [reflexivity| |reflexivity].
  intros k s Hk Hx. reflexivity.
Defined.

End TransformationWitnesses.

(* ===================================================================== *)
(** * Whole runs *)
(* ===================================================================== *)

Section RunFacts.
Variable w : world.

Lemma ended_total : ∃ e, ended w e.
Proof.
  destruct (main_cases w) as [[e Hr]|[Hr|(raw & Hr & Hs)]].
  { eexists. by eapply acquisition_failed. }
  { eexists. by eapply acquisition_cancelled. }
  destruct Hs as [[e Hs]|[Hs|[ev Hs]]].
  { eexists. by eapply transformation_failed. }
  { eexists. by eapply transformation_cancelled. }
  destruct (first_violation ev) as [v|] eqn:Hv.
  { eexists. by eapply validation_failed. }
  destruct (mkdir w OUTPUT_DIR) as [[]|e|] eqn:Hm.
  - destruct (to_csv w ev OUTPUT_FILE) as [[]|e|] eqn:Hc.
    + eexists. by eapply succeeded.
    + eexists. by eapply to_csv_failed.
    + eexists. by eapply to_csv_cancelled.
  - eexists. by eapply mkdir_failed.
  - eexists. by eapply mkdir_cancelled.
Qed.

Lemma ended_result e :
  ended w e →
  result (main w) =
  match e with
  | Success => Returns tt
  | Cancellation => Raises (SystemExit 0)
  | _ => Raises (SystemExit 1)
  end.
Proof.
  intros He.
  destruct He as [e Hr|Hr|raw e Hr Hs|raw Hr Hs|raw ev v Hr Hs Hv
                  |raw ev e Hr Hs Hv Hm|raw ev Hr Hs Hv Hm
                  |raw ev e Hr Hs Hv Hm Hc|raw ev Hr Hs Hv Hm Hc
                  |raw ev Hr Hs Hv Hm Hc].
  - by rewrite (main_acquisition_failed w e Hr).
  - by rewrite (main_acquisition_cancelled w Hr).
  - by rewrite (main_transformation_failed w raw e Hr Hs).
  - by rewrite (main_transformation_cancelled w raw Hr Hs).
  - by rewrite (main_validation_failed w raw ev v Hr Hs Hv).
  - by rewrite (main_validated w raw ev Hr Hs Hv), Hm.
  - by rewrite (main_validated w raw ev Hr Hs Hv), Hm.
  - by rewrite (main_validated w raw ev Hr Hs Hv), Hm, Hc.
  - by rewrite (main_validated w raw ev Hr Hs Hv), Hm, Hc.
  - by rewrite (main_validated w raw ev Hr Hs Hv), Hm, Hc.
Qed.

(** X5: [main] lets nothing escape: whatever the world does, it returns or
    leaves through [sys.exit] with code 0 or 1, never with an exception or
    an interrupt of its own; it returns only when every stage went through,
    and leaves with code 0 only when the user interrupted it. *)
Theorem main_never_raises :
  (result (main w) = Returns tt
   ∨ result (main w) = Raises (SystemExit 0)
   ∨ result (main w) = Raises (SystemExit 1))
  ∧ (result (main w) = Returns tt ↔ ended w Success)
  ∧ (result (main w) = Raises (SystemExit 0) ↔ ended w Cancellation).
Proof.
  destruct ended_total as [e He].
  pose proof (ended_result e He) as Hres.
  split_and!.
  - rewrite Hres. destruct e; auto.
  - split.
    + intros Hr. rewrite Hr in Hres. by destruct e.
    + intros Hs. by rewrite (ended_result _ Hs).
  - split.
    + intros Hr. rewrite Hr in Hres. by destruct e.
    + intros Hs. by rewrite (ended_result _ Hs).
Qed.

End RunFacts.

(* ===================================================================== *)
(** * What a passing log looks like *)
(* ===================================================================== *)

Section ValidatedLogs.

Lemma isna_any_false s : isna_any s = false ↔ Null ∉ s.
Proof.
  unfold isna_any. induction s as [|c s IH]; cbn.
  - split; [intros _; apply not_elem_of_nil|done].
  - rewrite orb_false_iff, IH, not_elem_of_cons. destruct c; naive_solver.
Qed.

Lemma empty_false df : empty df = false ↔ columns df ≠ [] ∧ rows df ≠ [].
Proof.
  unfold empty. rewrite orb_false_iff, !bool_decide_eq_false. done.
Qed.

Lemma column_length df col :
  col ∈ columns df → length (column df col) = len df.
Proof.
  intros Hin. pose proof (getitem_present df col Hin) as Hg.
  unfold getitem in Hg. destruct (position df col) as [i|]; [|done].
  cbn in Hg. injection Hg as <-. unfold cells_at, len. by rewrite length_fmap.
Qed.

Lemma unique_singleton s x :
  unique s = [x] ↔ s ≠ [] ∧ ∀ c, c ∈ s → c = x.
Proof.
  split.
  - intros Hu. split; [by intros ->|].
    intros c Hc. apply (proj2 (elem_of_unique c s)) in Hc. rewrite Hu in Hc.
    by apply list_elem_of_singleton in Hc.
  - intros [Hne Hall]. destruct s as [|c s]; [done|]. cbn.
    rewrite (Hall c) by (apply elem_of_cons; by left). f_equal.
    apply filter_nil_Forall, Forall_forall. intros d Hd Hneq.
    apply (proj1 (elem_of_unique d s)) in Hd.
    apply Hneq, Hall, elem_of_cons. by right.
Qed.

(** X1: a log passes validation exactly when it has the three required
    columns and at least one row, no row lacks its case_id or its
    activity_name, and, if there is a posteam column, every row has NE in
    it. *)
Theorem validated_rows (event_log : DataFrame) :
  result (validate_transformation event_log) = Returns true
  ↔ (∀ col, col ∈ required_columns → col ∈ columns event_log)
    ∧ rows event_log ≠ []
    ∧ (Null ∉ column event_log "case_id")
    ∧ (Null ∉ column event_log "activity_name")
    ∧ ("posteam" ∈ columns event_log →
       ∀ c, c ∈ column event_log "posteam" → c = Str "NE").
Proof.
  rewrite result_validate_true, first_violation_None, violations_nil.
  rewrite check_columns_None, check_posteam_None.
  unfold check_nonempty, check_case_id, check_activity_name, has_column.
  split.
  - intros (Hcols & Hne & Hcase & Hact & Hteam).
    destruct (empty event_log) eqn:Hempty; [done|].
    apply empty_false in Hempty as [_ Hrows].
    destruct (isna_any (column event_log "case_id")) eqn:Hc; [done|].
    destruct (isna_any (column event_log "activity_name")) eqn:Ha; [done|].
    apply isna_any_false in Hc, Ha.
    split_and!; [done..|].
    intros Hp. apply unique_singleton, Hteam. by apply bool_decide_eq_true.
  - intros (Hcols & Hrows & Hc & Ha & Hteam).
    assert (empty event_log = false) as ->.
    { apply empty_false. split; [|done]. intros Hnil.
      assert ("case_id" ∈ columns event_log) as Hin by (apply Hcols; set_solver).
      rewrite Hnil in Hin. by apply not_elem_of_nil in Hin. }
    apply isna_any_false in Hc, Ha. rewrite Hc, Ha.
    split_and!; [done..|].
    intros Hp%bool_decide_eq_true. apply unique_singleton. split; [|by apply Hteam].
    intros Hnil. apply (f_equal length) in Hnil.
    rewrite (column_length _ _ Hp) in Hnil. unfold len in Hnil.
    by destruct (rows event_log).
Qed.

(** X2: the validator looks at the column labels, at the number of rows and
    at the cells of case_id, activity_name and posteam, and at nothing
    else: two logs that agree on these are treated alike.  In particular the
    cells of transformed_time are never examined. *)
Theorem validation_ignores_other_cells (log1 log2 : DataFrame) :
  columns log1 = columns log2 →
  len log1 = len log2 →
  (∀ col, col ∈ ["case_id"; "activity_name"; "posteam"] →
          column log1 col = column log2 col) →
  validate_transformation log1 = validate_transformation log2.
Proof.
  intros Hcols Hlen Hcells.
  assert (column log1 "case_id" = column log2 "case_id") as Hc
    by (apply Hcells; set_solver).
  assert (column log1 "activity_name" = column log2 "activity_name") as Ha
    by (apply Hcells; set_solver).
  assert (column log1 "posteam" = column log2 "posteam") as Hp
    by (apply Hcells; set_solver).
  assert (empty log1 = empty log2) as He.
  { unfold empty. rewrite Hcols. f_equal. unfold len in Hlen.
    apply bool_decide_ext. by destruct (rows log1), (rows log2). }
  rewrite !validate_transformation_verdict. unfold verdict.
  assert (first_violation log1 = first_violation log2) as ->.
  { unfold first_violation, violations, checks. cbn [omap list_omap].
    unfold check_columns, check_nonempty, check_case_id, check_activity_name,
      check_posteam, has_column.
    by rewrite Hcols, He, Hc, Ha, Hp. }
  by rewrite Hlen, Hc, Ha.
Qed.

End ValidatedLogs.

Section ValidatedLogsWitnesses.

Lemma validated_rows_witness :
  (∀ c, c ∈ column Samples.ne_log "posteam" → c = Str "NE")
  ∧ result (validate_transformation Samples.no_team_log) = Returns true.
Proof.
  split.
  - refine (proj2 (proj2 (proj2 (proj2
              (proj1 (validated_rows Samples.ne_log) eq_refl)))) _).
    apply (list_elem_of_lookup_2 _ 3%nat). reflexivity.
  - apply (proj2 (validated_rows Samples.no_team_log)).
    split_and!.
    + intros col Hcol. apply list_elem_of_In in Hcol. cbn in Hcol.
      destruct Hcol as [<-|[<-|[<-|[]]]]; apply list_elem_of_In; cbn; tauto.
    + discriminate.
    + apply (bool_decide_unpack _). vm_compute. exact I.
    + apply (bool_decide_unpack _). vm_compute. exact I.
    + intros Hp. exfalso. revert Hp. apply (bool_decide_unpack _). vm_compute. exact I.
Defined.

Lemma validation_ignores_other_cells_witness :
  validate_transformation MoreSamples.untimed_log
  = validate_transformation
      (mkFrame (columns MoreSamples.untimed_log) (rows Samples.ne_log)).
Proof.
  apply validation_ignores_other_cells; [reflexivity..|].
  intros col Hcol. apply list_elem_of_In in Hcol. cbn in Hcol.
  destruct Hcol as [<-|[<-|[<-|[]]]]; reflexivity.
Defined.

End ValidatedLogsWitnesses.
